(** * ShopSmart authentication contract

    A shallow embedding of the authentication code of the repository:

    - [client/src/__tests__/mocks/handlers.js]: the handlers of the three
      endpoints [/api/auth/login], [/api/auth/signup] and [/api/auth/me],
      with the user store [mockUsers] and the credential table
      [validCredentials] they consult;
    - [client/src/context/AuthContext.jsx]: the client store held by
      [AuthProvider] (user, token, loading flag, the [localStorage] slot
      ['token']) and its operations.

    Part I holds the definitions, Part II the facts proved about them. *)

From Stdlib Require Import ZArith NArith List Bool Ascii String Lia.
From stdpp Require Import base list option gmap.

Set Warnings "-register-all".

(* ===================================================================== *)
(** * Part I: the embedding                                               *)
(* ===================================================================== *)

(** ** JavaScript strings and values

    A JavaScript string is a sequence of UTF-16 code units; [length],
    [split], [startsWith] and a regular expression without the [u] flag
    all work on code units. A code unit is a number [N]. *)

Abbreviation jstring := (list N).

Definition lit (s : string) : jstring := N_of_ascii <$> list_ascii_of_string s.
Arguments lit s%_string.

Module Js.

Local Open Scope N_scope.

(** [WhiteSpace] and [LineTerminator] of ECMAScript: what [\s] matches in a
    regular expression and what [parseInt] skips in front of its input. *)
Definition isWhiteSpace (c : N) : bool :=
  ((9 <=? c) && (c <=? 13)) || (c =? 32) || (c =? 160) || (c =? 5760)
  || ((8192 <=? c) && (c <=? 8202)) || (c =? 8232) || (c =? 8233)
  || (c =? 8239) || (c =? 8287) || (c =? 12288) || (c =? 65279).

(** Equality of strings, [===] on two strings. *)
Definition streq (a b : jstring) : bool := bool_decide (a = b).

(** [s.startsWith(p)] *)
Fixpoint startsWith (s p : jstring) {struct p} : bool :=
  match p, s with
  | [], _ => true
  | _ :: _, [] => false
  | x :: p', y :: s' => (x =? y) && startsWith s' p'
  end.

(** [s.split(sep)] for a separator of one code unit (the two separators of
    the handlers are [' '] and ['-']). The result is never empty:
    [''.split(sep)] is [['']]. *)
Fixpoint split (sep : N) (s : jstring) : list jstring :=
  match s with
  | [] => [[]]
  | c :: s' =>
      if c =? sep then [] :: split sep s'
      else match split sep s' with
           | seg :: segs => (c :: seg) :: segs
           | [] => [[c]]
           end
  end.

(** Numbers. A JavaScript number is a double; the model keeps the integers,
    as [Z]. It is exact up to 2^53 in absolute value, which covers the
    identifiers of the store (1, 2, [mockUsers.length + 1]) and
    [Date.now()]. A result that is [NaN] is [None]. *)

Fixpoint digits_fuel (fuel : nat) (n : N) (acc : jstring) : jstring :=
  match fuel with
  | O => acc
  | S fuel' =>
      let acc' := (48 + n mod 10) :: acc in
      if n <? 10 then acc' else digits_fuel fuel' (n / 10) acc'
  end.

(** The decimal digits of [n], most significant first. *)
Definition digits (n : N) : jstring :=
  digits_fuel (S (N.to_nat (N.log2 n))) n [].

(** [String(n)], what a template literal does with a number. *)
Definition toString (n : Z) : jstring :=
  if (n <? 0)%Z then 45 :: digits (Z.to_N (- n)) else digits (Z.to_N n).

(** The value of a code unit as a digit of [radix], if it is one. *)
Definition digitValue (radix c : N) : option N :=
  let v :=
    if (48 <=? c) && (c <=? 57) then Some (c - 48)
    else if (97 <=? c) && (c <=? 122) then Some (c - 97 + 10)
    else if (65 <=? c) && (c <=? 90) then Some (c - 65 + 10)
    else None in
  match v with
  | Some d => if d <? radix then Some d else None
  | None => None
  end.

(** The longest prefix of digits of [radix], as digit values. *)
Fixpoint leadingDigits (radix : N) (s : jstring) : list N :=
  match s with
  | [] => []
  | c :: s' =>
      match digitValue radix c with
      | Some d => d :: leadingDigits radix s'
      | None => []
      end
  end.

Definition digitsValue (radix : N) (ds : list N) : N :=
  fold_left (fun acc d => acc * radix + d) ds 0.

Fixpoint skipWhiteSpace (s : jstring) : jstring :=
  match s with
  | c :: s' => if isWhiteSpace c then skipWhiteSpace s' else s
  | [] => []
  end.

(** [parseInt(s)] with no radix: leading white space is skipped, then an
    optional sign, then [0x] or [0X] selects radix 16, then the longest
    prefix of digits is read; no digit at all gives [NaN]. *)
Definition parseInt (s : jstring) : option Z :=
  let s1 := skipWhiteSpace s in
  let '(sign, s2) :=
    match s1 with
    | c :: r =>
        if c =? 45 then ((-1)%Z, r)
        else if c =? 43 then (1%Z, r)
        else (1%Z, s1)
    | [] => (1%Z, s1)
    end in
  let '(radix, s3) :=
    match s2 with
    | c1 :: c2 :: r =>
        if (c1 =? 48) && ((c2 =? 120) || (c2 =? 88)) then (16, r) else (10, s2)
    | _ => (10, s2)
    end in
  match leadingDigits radix s3 with
  | [] => None
  | ds => Some (sign * Z.of_N (digitsValue radix ds))%Z
  end.

(** Values, as far as the JSON bodies of the three endpoints need them. An
    object is the list of its properties in the order they were written. *)
Inductive val :=
| VUndefined
| VNull
| VBool (b : bool)
| VNum (n : Z)
| VStr (s : jstring)
| VObj (props : list (string * val)).

(** [ToBoolean], behind [!x], [!!x] and [if (x)]. *)
Definition truthy (v : val) : bool :=
  match v with
  | VUndefined | VNull => false
  | VBool b => b
  | VNum n => negb (n =? 0)%Z
  | VStr s => negb (streq s [])
  | VObj _ => true
  end.

Fixpoint lookupProp (k : string) (props : list (string * val)) : val :=
  match props with
  | [] => VUndefined
  | (k', v) :: rest => if String.eqb k k' then v else lookupProp k rest
  end.

(** [v.k]. Reading a property of [undefined] or [null] throws a
    [TypeError]: [None]. *)
Definition prop (v : val) (k : string) : option val :=
  match v with
  | VUndefined | VNull => None
  | VObj props => Some (lookupProp k props)
  | _ => Some VUndefined
  end.
Arguments prop v k%_string.

(** [String(v)], what [localStorage.setItem] and a template literal do
    with a value. *)
Definition valToString (v : val) : jstring :=
  match v with
  | VUndefined => lit "undefined"
  | VNull => lit "null"
  | VBool true => lit "true"
  | VBool false => lit "false"
  | VNum n => toString n
  | VStr s => s
  | VObj _ => lit "[object Object]"
  end.

(** An optional string field of a JSON body as a value: a missing field
    reads as [undefined]. *)
Definition ofField (f : option jstring) : val :=
  match f with
  | Some s => VStr s
  | None => VUndefined
  end.

(** [x || null] *)
Definition orNull (v : val) : val := if truthy v then v else VNull.

(** A decimal digit, and the value in base ten of a run of digits. *)
Definition isDigit (c : N) : Prop := 48 <= c <= 57.

Definition decimalValue (s : jstring) : N :=
  fold_left (fun acc c => acc * 10 + (c - 48)) s 0.

End Js.

(** ** Regular expressions

    The part of the regular expression language that [emailRegex] uses,
    with a matcher by derivatives. [test] is [RegExp.prototype.test] for an
    expression anchored at both ends ([^...$], no flags): does the whole
    input match. *)
Module Regex.

Local Open Scope N_scope.

Inductive t :=
| Void
| Empty
| Class (p : N -> bool)
| Seq (r1 r2 : t)
| Alt (r1 r2 : t)
| Star (r : t).

Definition Plus (r : t) : t := Seq r (Star r).
Definition Chr (c : N) : t := Class (N.eqb c).

Fixpoint nullable (r : t) : bool :=
  match r with
  | Void => false
  | Empty => true
  | Class _ => false
  | Seq r1 r2 => nullable r1 && nullable r2
  | Alt r1 r2 => nullable r1 || nullable r2
  | Star _ => true
  end.

Fixpoint deriv (c : N) (r : t) : t :=
  match r with
  | Void => Void
  | Empty => Void
  | Class p => if p c then Empty else Void
  | Seq r1 r2 =>
      if nullable r1 then Alt (Seq (deriv c r1) r2) (deriv c r2)
      else Seq (deriv c r1) r2
  | Alt r1 r2 => Alt (deriv c r1) (deriv c r2)
  | Star r1 => Seq (deriv c r1) (Star r1)
  end.

Fixpoint test (r : t) (s : jstring) : bool :=
  match s with
  | [] => nullable r
  | c :: s' => test (deriv c r) s'
  end.

(** The strings an expression denotes. *)
Inductive lang : t -> jstring -> Prop :=
| lang_empty : lang Empty []
| lang_class p c : p c = true -> lang (Class p) [c]
| lang_seq r1 r2 s1 s2 : lang r1 s1 -> lang r2 s2 -> lang (Seq r1 r2) (s1 ++ s2)
| lang_alt_l r1 r2 s : lang r1 s -> lang (Alt r1 r2) s
| lang_alt_r r1 r2 s : lang r2 s -> lang (Alt r1 r2) s
| lang_star_nil r : lang (Star r) []
| lang_star_cons r s1 s2 : lang r s1 -> lang (Star r) s2 -> lang (Star r) (s1 ++ s2).

End Regex.

(** ** The service: [handlers.js] *)

(** A record of the user store, with the fields of the entries of
    [mockUsers]. [password] is the stored hash; a name that is [null] is
    [None]. *)
Module User.
Record t := {
  id : Z;
  email : jstring;
  firstName : option jstring;
  lastName : option jstring;
  password : jstring;
  createdAt : jstring
}.
End User.

Module Handlers.

Local Open Scope N_scope.
Import Js.

(** What the handlers read: the array [mockUsers] and the object
    [validCredentials] (plain text password by email). Both are module-level
    constants of [handlers.js]; the handlers take them as an argument here,
    so that a fact can be stated for every content of the store.

    [validCredentials[email]] is the lookup in a finite map. A key that the
    object only inherits ([constructor], [toString], ...) reads as a value
    that is no string, never [===] to the password, as does a key that is
    not there. *)
Record Db := {
  users : list User.t;
  credentials : gmap jstring jstring
}.

Definition mockUsers : list User.t := [
  {| User.id := 1;
     User.email := lit "john@example.com";
     User.firstName := Some (lit "John");
     User.lastName := Some (lit "Doe");
     User.password := lit "$2a$10$mockhashedpassword123";
     User.createdAt := lit "2024-01-15T10:30:00.000Z" |};
  {| User.id := 2;
     User.email := lit "jane@example.com";
     User.firstName := Some (lit "Jane");
     User.lastName := Some (lit "Smith");
     User.password := lit "$2a$10$mockhashedpassword456";
     User.createdAt := lit "2024-01-20T14:45:00.000Z" |}
].

Definition validCredentials : gmap jstring jstring :=
  <[ lit "john@example.com" := lit "password123" ]>
    (<[ lit "jane@example.com" := lit "password456" ]> ∅).

Definition mockDb : Db :=
  {| users := mockUsers; credentials := validCredentials |}.

(** [`mock-jwt-token-${userId}-${email}-${Date.now()}`]; [now] is the value
    of [Date.now()]. *)
Definition generateMockToken (userId : Z) (email : jstring) (now : Z) : jstring :=
  lit "mock-jwt-token-" ++ toString userId ++ lit "-" ++ email ++ lit "-"
    ++ toString now.

(** [HttpResponse.json(body, { status })] *)
Record Response := {
  status : Z;
  body : val
}.

Definition failure (code : Z) (message : string) : Response :=
  {| status := code;
     body := VObj [("success", VBool false); ("message", VStr (lit message))]%string |}.

(** A name of the store as a JSON value. *)
Definition nameVal (n : option jstring) : val :=
  match n with
  | Some s => VStr s
  | None => VNull
  end.

(** [mockUsers.find(u => u.email === email)] *)
Definition findByEmail (db : Db) (email : jstring) : option User.t :=
  find (fun u => streq (User.email u) email) (users db).

(** [mockUsers.find(u => u.id === userId)]; no identifier is [===] to
    [NaN]. *)
Definition findById (db : Db) (userId : option Z) : option User.t :=
  match userId with
  | Some n => find (fun u => (User.id u =? n)%Z) (users db)
  | None => None
  end.

(** [http.post('*/api/auth/login', ...)]. [email] and [password] are the
    fields of the request body, strings as [AuthContext.jsx] sends them,
    [None] when the field is missing or [null]. *)
Definition login (db : Db) (email password : option jstring) (now : Z) : Response :=
  if negb (truthy (ofField email)) || negb (truthy (ofField password)) then
    failure 400 "Email and password are required"
  else
    match email, password with
    | Some email, Some password =>
        let user := findByEmail db email in
        let validPassword := credentials db !! email in
        match user with
        | Some user =>
            if negb (bool_decide (Some password = validPassword)) then
              failure 401 "Invalid email or password"
            else
              let token := generateMockToken (User.id user) (User.email user) now in
              {| status := 200;
                 body := VObj [
                   ("success", VBool true);
                   ("message", VStr (lit "Login successful"));
                   ("data", VObj [
                      ("user", VObj [
                         ("id", VNum (User.id user));
                         ("email", VStr (User.email user));
                         ("firstName", nameVal (User.firstName user));
                         ("lastName", nameVal (User.lastName user))]);
                      ("token", VStr token)])]%string |}
        | None => failure 401 "Invalid email or password"
        end
    | _, _ => failure 400 "Email and password are required"
    end.

(** [/^[^\s@]+@[^\s@]+\.[^\s@]+$/] *)
Definition notSpaceAt (c : N) : bool := negb (isWhiteSpace c || (c =? 64)).

Definition emailRegex : Regex.t :=
  Regex.Seq (Regex.Plus (Regex.Class notSpaceAt))
    (Regex.Seq (Regex.Chr 64)
       (Regex.Seq (Regex.Plus (Regex.Class notSpaceAt))
          (Regex.Seq (Regex.Chr 46)
             (Regex.Plus (Regex.Class notSpaceAt))))).

(** [http.post('*/api/auth/signup', ...)]. [iso] is the value of
    [new Date().toISOString()], [now] the value of [Date.now()]. The array
    [mockUsers] is read and never written. *)
Definition signup (db : Db) (email password firstName lastName : option jstring)
    (iso : jstring) (now : Z) : Response :=
  if negb (truthy (ofField email)) || negb (truthy (ofField password)) then
    failure 400 "Email and password are required"
  else
    match email, password with
    | Some email, Some password =>
        if negb (Regex.test emailRegex email) then
          failure 400 "Invalid email format"
        else if N.of_nat (length password) <? 6 then
          failure 400 "Password must be at least 6 characters long"
        else
          let existingUser := findByEmail db email in
          match existingUser with
          | Some _ => failure 409 "User with this email already exists"
          | None =>
              let newUser_id := (Z.of_nat (length (users db)) + 1)%Z in
              let newUser := VObj [
                ("id", VNum newUser_id);
                ("email", VStr email);
                ("firstName", orNull (ofField firstName));
                ("lastName", orNull (ofField lastName));
                ("createdAt", VStr iso)]%string in
              let token := generateMockToken newUser_id email now in
              {| status := 201;
                 body := VObj [
                   ("success", VBool true);
                   ("message", VStr (lit "User created successfully"));
                   ("data", VObj [("user", newUser); ("token", VStr token)])]%string |}
          end
    | _, _ => failure 400 "Email and password are required"
    end.

(** [http.get('*/api/auth/me', ...)]. [authHeader] is
    [request.headers.get('Authorization')], [None] when the request has no
    such header. *)
Definition me (db : Db) (authHeader : option jstring) : Response :=
  match authHeader with
  | None => failure 401 "No token provided"
  | Some authHeader =>
      if negb (truthy (VStr authHeader)) || negb (startsWith authHeader (lit "Bearer ")) then
        failure 401 "No token provided"
      else
        let token := split 32 authHeader !! 1%nat in
        if negb (truthy (ofField token))
           || negb (startsWith (valToString (ofField token)) (lit "mock-jwt-token-")) then
          failure 401 "Invalid or expired token"
        else
          let tokenParts := split 45 (valToString (ofField token)) in
          let userId := parseInt (valToString (ofField (tokenParts !! 3%nat))) in
          let user := findById db userId in
          match user with
          | None => failure 404 "User not found"
          | Some user =>
              {| status := 200;
                 body := VObj [
                   ("success", VBool true);
                   ("data", VObj [
                      ("user", VObj [
                         ("id", VNum (User.id user));
                         ("email", VStr (User.email user));
                         ("firstName", nameVal (User.firstName user));
                         ("lastName", nameVal (User.lastName user));
                         ("createdAt", VStr (User.createdAt user))])])]%string |}
          end
  end.

(** A request to the service, with the clock readings the handler takes
    while it answers ([iso] for [new Date().toISOString()], [now] for
    [Date.now()]). *)
Inductive Request :=
| PostLogin (email password : option jstring) (now : Z)
| PostSignup (email password firstName lastName : option jstring)
    (iso : jstring) (now : Z)
| GetMe (authHeader : option jstring).

(** The service as a state machine over its store. No handler assigns to
    [mockUsers] or [validCredentials] or calls a mutating method on them,
    so the store after a request is the store before it. *)
Definition handle (db : Db) (rq : Request) : Response * Db :=
  match rq with
  | PostLogin e p now => (login db e p now, db)
  | PostSignup e p f l iso now => (signup db e p f l iso now, db)
  | GetMe h => (me db h, db)
  end.

(** Requests handled one after the other. *)
Fixpoint run (db : Db) (rqs : list Request) : list Response * Db :=
  match rqs with
  | [] => ([], db)
  | rq :: rest =>
      let '(r, db') := handle db rq in
      let '(rs, db'') := run db' rest in
      (r :: rs, db'')
  end.

(** Reading a response the way the client does. *)
Definition message (r : Response) : val := default VUndefined (prop (body r) "message").
Definition succeeded (r : Response) : bool :=
  truthy (default VUndefined (prop (body r) "success")).
Definition dataUser (r : Response) : option val :=
  d ← prop (body r) "data"; prop d "user".
Definition dataToken (r : Response) : option val :=
  d ← prop (body r) "data"; prop d "token".

End Handlers.

(** ** The vocabulary of the statements *)

Module Spec.

Local Open Scope N_scope.

(** A character that is neither white space nor [@]. *)
Definition plainChar (c : N) : Prop := Js.isWhiteSpace c = false /\ c <> 64.

(** The [local@domain.tld] shape: plain characters, [@], plain characters,
    [.], plain characters, each run with at least one character. *)
Definition emailShape (s : jstring) : Prop :=
  exists l d t,
    s = l ++ [64] ++ d ++ [46] ++ t
    /\ l <> [] /\ d <> [] /\ t <> []
    /\ Forall plainChar l /\ Forall plainChar d /\ Forall plainChar t.

(** A field of a request body is absent or empty. *)
Definition missing (f : option jstring) : Prop := f = None \/ f = Some [].

(** The public fields of a user object in a response. *)
Definition publicKeys : list string :=
  ["id"; "email"; "firstName"; "lastName"; "createdAt"]%string.

(** A user of the store as [me] shows it: every field but the password. *)
Definition publicUser (u : User.t) : Js.val :=
  Js.VObj [
    ("id", Js.VNum (User.id u));
    ("email", Js.VStr (User.email u));
    ("firstName", Handlers.nameVal (User.firstName u));
    ("lastName", Handlers.nameVal (User.lastName u));
    ("createdAt", Js.VStr (User.createdAt u))]%string.

(** The response 200 of [me] with the user [u]. *)
Definition currentUser (u : User.t) : Handlers.Response :=
  {| Handlers.status := 200;
     Handlers.body := Js.VObj [
       ("success", Js.VBool true);
       ("data", Js.VObj [("user", publicUser u)])]%string |}.

(** The response 200 of [login] for the user [u] with the token [tok]. *)
Definition loggedIn (u : User.t) (tok : jstring) : Handlers.Response :=
  {| Handlers.status := 200;
     Handlers.body := Js.VObj [
       ("success", Js.VBool true);
       ("message", Js.VStr (lit "Login successful"));
       ("data", Js.VObj [
          ("user", Js.VObj [
             ("id", Js.VNum (User.id u));
             ("email", Js.VStr (User.email u));
             ("firstName", Handlers.nameVal (User.firstName u));
             ("lastName", Handlers.nameVal (User.lastName u))]);
          ("token", Js.VStr tok)])]%string |}.

Definition tokenPrefix : jstring := lit "mock-jwt-token-".

(** The fourth of the segments of a token that dashes separate, as
    [parseInt] reads it: a number, or nothing. *)
Definition fourthSegment (t : jstring) : option Z :=
  Js.parseInt (Js.valToString (Js.ofField (Js.split 45 t !! 3%nat))).

(** The user identifier a token resolves to: the number its fourth segment
    parses to, for a token that starts with [mock-jwt-token-]. *)
Definition resolvedId (t : jstring) : option Z :=
  if Js.startsWith t tokenPrefix then fourthSegment t else None.

(** The store with every stored password hash blanked. *)
Definition blankPassword (u : User.t) : User.t :=
  {| User.id := User.id u;
     User.email := User.email u;
     User.firstName := User.firstName u;
     User.lastName := User.lastName u;
     User.password := [];
     User.createdAt := User.createdAt u |}.

Definition withoutPasswords (db : Handlers.Db) : Handlers.Db :=
  {| Handlers.users := blankPassword <$> Handlers.users db;
     Handlers.credentials := Handlers.credentials db |}.

(** The user object of a response is an object with public fields only. *)
Definition publicUserOnly (r : Handlers.Response) : Prop :=
  exists props,
    Handlers.dataUser r = Some (Js.VObj props)
    /\ Forall (fun k => k ∈ publicKeys) props.*1
    /\ Js.lookupProp "password" props = Js.VUndefined
    /\ Js.lookupProp "passwordHash" props = Js.VUndefined.

(** A response is a failure, a login, a signup or a current user. *)
Inductive Shape : Handlers.Response -> Prop :=
| shape_failure code msg : Shape (Handlers.failure code msg)
| shape_login u tok : Shape (loggedIn u tok)
| shape_signup newId e f l iso tok :
    Shape {| Handlers.status := 201;
             Handlers.body := Js.VObj [
               ("success", Js.VBool true);
               ("message", Js.VStr (lit "User created successfully"));
               ("data", Js.VObj [
                  ("user", Js.VObj [
                     ("id", Js.VNum newId);
                     ("email", Js.VStr e);
                     ("firstName", Js.orNull (Js.ofField f));
                     ("lastName", Js.orNull (Js.ofField l));
                     ("createdAt", Js.VStr iso)]);
                  ("token", Js.VStr tok)])]%string |}
| shape_me u : Shape (currentUser u).

(** The value of a property of the user object of a response. *)
Definition userField (r : Handlers.Response) (k : string) : option Js.val :=
  u ← Handlers.dataUser r; Js.prop u k.
Arguments userField r k%_string.

End Spec.

(** ** The client store: [AuthContext.jsx] *)

Module AuthContext.

Import Js.

(** A request of the provider that has been sent and not yet answered. *)
Inductive Call :=
| CallMe (token : val)
| CallSignup (email password firstName lastName : option jstring)
| CallLogin (email password : option jstring).

(** What [await fetch(...)] followed by [await response.json()] gives: the
    parsed body, or an exception (the request did not get through, or the
    body was not JSON). *)
Inductive Outcome :=
| Threw
| Replied (data : val).

(** The state of [AuthProvider]: the three [useState] cells, the slot
    ['token'] of [localStorage], and the requests in flight. *)
Record World := {
  user : val;
  token : val;
  loading : bool;
  storage : option jstring;
  inflight : list Call
}.

(** [isAuthenticated: !!user] *)
Definition isAuthenticated (w : World) : bool := truthy (user w).

Definition setUser (w : World) (u : val) : World :=
  {| user := u; token := token w; loading := loading w;
     storage := storage w; inflight := inflight w |}.

Definition setLoading (w : World) (b : bool) : World :=
  {| user := user w; token := token w; loading := b;
     storage := storage w; inflight := inflight w |}.

Definition setItem (w : World) (v : val) : World :=
  {| user := user w; token := token w; loading := loading w;
     storage := Some (valToString v); inflight := inflight w |}.

Definition removeItem (w : World) : World :=
  {| user := user w; token := token w; loading := loading w;
     storage := None; inflight := inflight w |}.

Definition send (w : World) (c : Call) : World :=
  {| user := user w; token := token w; loading := loading w;
     storage := storage w; inflight := inflight w ++ [c] |}.

(** The body of [useEffect(..., [token])]: with a token, [fetchUser()] sends
    the request for the current user; without one, loading ends. *)
Definition effect (w : World) : World :=
  if truthy (token w) then send w (CallMe (token w)) else setLoading w false.

(** [Object.is] on two values; two objects parsed from two bodies are never
    the same object. *)
Definition sameValue (a b : val) : bool :=
  match a, b with
  | VUndefined, VUndefined => true
  | VNull, VNull => true
  | VBool x, VBool y => Bool.eqb x y
  | VNum x, VNum y => (x =? y)%Z
  | VStr x, VStr y => streq x y
  | _, _ => false
  end.

(** [setToken(t)]: a value that differs from the held one is stored, and
    the effect that depends on [token] runs after the render. *)
Definition setToken (w : World) (t : val) : World :=
  if sameValue t (token w) then w
  else effect {| user := user w; token := t; loading := loading w;
                 storage := storage w; inflight := inflight w |}.

(** The first render: [useState(localStorage.getItem('token'))], no user,
    loading; then the effect runs. *)
Definition boot (stored : option jstring) : World :=
  effect {| user := VNull;
            token := match stored with Some s => VStr s | None => VNull end;
            loading := true;
            storage := stored;
            inflight := [] |}.

(** [logout()] *)
Definition logout (w : World) : World :=
  setUser (setToken (removeItem w) VNull) VNull.

(** [data.data.user], [None] when reading it throws. *)
Definition dataUser (data : val) : option val :=
  d ← prop data "data"; prop d "user".

Definition dataToken (data : val) : option val :=
  d ← prop data "data"; prop d "token".

(** [fetchUser()] from the point where the request is answered. *)
Definition fetchUser (w : World) (o : Outcome) : World :=
  let w' :=
    match o with
    | Replied data =>
        match prop data "success" with
        | Some success =>
            if truthy success then
              match dataUser data with
              | Some u => setUser w u
              | None => logout w
              end
            else logout w
        | None => logout w
        end
    | Threw => logout w
    end in
  setLoading w' false.

(** What [signup] and [login] return to the caller. *)
Record Result := {
  success : bool;
  message : val
}.

Definition networkError : Result :=
  {| success := false; message := VStr (lit "Network error. Please try again.") |}.

(** [signup(...)] and [login(...)] from the point where the request is
    answered; the two functions have the same body after the [fetch]. *)
Definition authenticate (w : World) (o : Outcome) : World * Result :=
  match o with
  | Replied data =>
      match prop data "success" with
      | Some s =>
          if truthy s then
            match dataToken data, dataUser data with
            | Some t, Some u =>
                (setUser (setToken (setItem w t) t) u,
                 {| success := true; message := VUndefined |})
            | _, _ => (w, networkError)
            end
          else
            (w, {| success := false;
                   message := default VUndefined (prop data "message") |})
      | None => (w, networkError)
      end
  | Threw => (w, networkError)
  end.

(** The answer of the service of [handlers.js] to a call. [iso] and [now]
    are the clock readings the handler takes. *)
Definition serve (db : Handlers.Db) (c : Call) (iso : jstring) (now : Z)
    : Handlers.Response :=
  match c with
  | CallMe t => Handlers.me db (Some (lit "Bearer " ++ valToString t))
  | CallSignup e p f l => Handlers.signup db e p f l iso now
  | CallLogin e p => Handlers.login db e p now
  end.

(** The continuation of a call once it is answered. *)
Definition settle (w : World) (c : Call) (o : Outcome) : World :=
  match c with
  | CallMe _ => fetchUser w o
  | CallSignup _ _ _ _ | CallLogin _ _ => fst (authenticate w o)
  end.

Definition withInflight (w : World) (cs : list Call) : World :=
  {| user := user w; token := token w; loading := loading w;
     storage := storage w; inflight := cs |}.

(** One step of the provider against the service over [db]: a consumer
    calls [signup], [login] or [logout], or one of the requests in flight
    is answered, in any order, by the service or by an exception. *)
Inductive step (db : Handlers.Db) : World -> World -> Prop :=
| step_signup w e p f l :
    step db w (send w (CallSignup e p f l))
| step_login w e p :
    step db w (send w (CallLogin e p))
| step_logout w :
    step db w (logout w)
| step_reply w before c after iso now :
    inflight w = before ++ c :: after ->
    step db w (settle (withInflight w (before ++ after)) c
                 (Replied (Handlers.body (serve db c iso now))))
| step_threw w before c after :
    inflight w = before ++ c :: after ->
    step db w (settle (withInflight w (before ++ after)) c Threw).

(** The states the provider can be in, started with [stored] in the slot. *)
Inductive reachable (db : Handlers.Db) (stored : option jstring) : World -> Prop :=
| reachable_boot : reachable db stored (boot stored)
| reachable_step w w' :
    reachable db stored w -> step db w w' -> reachable db stored w'.

(** A user record is held: the [user] cell holds an object. *)
Definition holdsUser (w : World) : Prop := exists props, user w = VObj props.

(** The call for the current user failed: an exception, an answer whose
    [success] is not truthy, or an answer whose [data.user] cannot be
    read. *)
Definition lookupFailed (o : Outcome) : Prop :=
  match o with
  | Threw => True
  | Replied data =>
      truthy (default VUndefined (prop data "success")) = false
      \/ dataUser data = None
  end.

End AuthContext.

(** ** The home page: [Home.jsx] *)

Module Home.

Import Js.

(** [user.firstName || user.email], the name after "Welcome, "; [None]
    when reading a property throws. *)
Definition greeting (user : val) : option val :=
  first ← prop user "firstName";
  if truthy first then Some first else prop user "email".

(** What the page shows of the session: the greeting with the logout
    button, or the links to the login and signup pages; [Crash] when the
    render throws. *)
Inductive Session :=
| Welcome (name : val)
| AuthLinks
| Crash.

(** [isAuthenticated ? (... Welcome ...) : (... links ...)] *)
Definition session (w : AuthContext.World) : Session :=
  if AuthContext.isAuthenticated w then
    match greeting (AuthContext.user w) with
    | Some name => Welcome name
    | None => Crash
    end
  else AuthLinks.

(** A user object the page can greet: it has a string that is not empty
    for its email, and a string or [null] for its first name. *)
Definition named (v : val) : Prop :=
  exists props e,
    v = VObj props
    /\ lookupProp "email" props = VStr e /\ e <> []
    /\ (lookupProp "firstName" props = VNull
        \/ exists f, lookupProp "firstName" props = VStr f).

End Home.

(** ** Runs of the provider *)

Module Runs.

Import Js AuthContext.

(** The provider with nothing held, nothing stored and nothing in flight. *)
Definition idle : World :=
  {| user := VNull; token := VNull; loading := false;
     storage := None; inflight := [] |}.

(** The slot that goes with a held token. *)
Definition slotOf (t : val) : option jstring :=
  match t with
  | VNull => None
  | v => Some (valToString v)
  end.

(** The number of [@] in a string. *)
Definition countAt (s : jstring) : nat := count_occ N.eq_dec s 64%N.

(** The response 201 of [signup]: the new user object and its token. *)
Definition created (newId : Z) (e : jstring) (f l : option jstring)
    (iso tok : jstring) : Handlers.Response :=
  {| Handlers.status := 201;
     Handlers.body := VObj [
       ("success", VBool true);
       ("message", VStr (lit "User created successfully"));
       ("data", VObj [
          ("user", VObj [
             ("id", VNum newId);
             ("email", VStr e);
             ("firstName", orNull (ofField f));
             ("lastName", orNull (ofField l));
             ("createdAt", VStr iso)]);
          ("token", VStr tok)])]%string |}.

(** A response of an endpoint with success status [ok] and error statuses
    [errors]: [success] is true with status [ok], or [success] is false
    with one of the error statuses and a message that is a string. *)
Definition answers (ok : Z) (errors : list Z) (r : Handlers.Response) : Prop :=
  (Handlers.succeeded r = true /\ Handlers.status r = ok)
  \/ (Handlers.succeeded r = false /\ Handlers.status r ∈ errors
      /\ exists msg, Handlers.message r = VStr (lit msg)).

(** The user object of the response 200 of [login]. *)
Definition loginUser (u : User.t) : val :=
  VObj [
    ("id", VNum (User.id u));
    ("email", VStr (User.email u));
    ("firstName", Handlers.nameVal (User.firstName u));
    ("lastName", Handlers.nameVal (User.lastName u))]%string.

(** [Number.isSafeInteger(n)]: the integers that a JavaScript number holds
    exactly. On them [String(n)] is the decimal notation of [n] (the
    exponent notation starts at 1e21) and [parseInt] reads it back
    exactly, as [Js.toString] and [Js.parseInt] do. *)
Definition safeInteger (n : Z) : Prop := (- 2 ^ 53 < n < 2 ^ 53)%Z.

(** The code units that [fetch] takes in the value of a header: a byte
    that is not NUL, LF or CR. With any other code unit in a header,
    [fetch] throws a [TypeError] and sends nothing. *)
Definition headerChars (s : jstring) : Prop :=
  Forall (fun c => (c <= 255 /\ c <> 0 /\ c <> 10 /\ c <> 13)%N) s.

(** The string does not end in HTTP white space (tab, LF, CR, space),
    which [fetch] strips from the end of the value of a header. *)
Definition endsClean (s : jstring) : Prop :=
  forall c, last s = Some c -> (c <> 9 /\ c <> 10 /\ c <> 13 /\ c <> 32)%N.

(** A header value that [fetch] sends as it is, so that the handler reads
    that very string from [request.headers.get]. *)
Definition sendable (s : jstring) : Prop := headerChars s /\ endsClean s.

(** The first render of [AuthProvider], before the effect of
    [useEffect(..., [token])] has run: [useState(null)],
    [useState(localStorage.getItem('token'))], [useState(true)].
    [AuthContext.boot] is this state after the effect. *)
Definition firstRender (stored : option jstring) : World :=
  {| user := VNull;
     token := match stored with Some s => VStr s | None => VNull end;
     loading := true;
     storage := stored;
     inflight := [] |}.

(** The states of the provider from its first render on. *)
Definition rendered (db : Handlers.Db) (stored : option jstring) (w : World) : Prop :=
  w = firstRender stored \/ reachable db stored w.

End Runs.

(* ===================================================================== *)
(** * Part II: facts                                                      *)
(* ===================================================================== *)

(** ** Strings and numbers *)

Module JsFacts.

Import Js.
Local Open Scope N_scope.

(** A character does not occur in a string that is written out. *)
Ltac no_char := apply (bool_decide_unpack _); vm_compute; exact I.

Lemma streq_true a b : streq a b = true <-> a = b.
Proof. unfold streq. apply bool_decide_eq_true. Qed.

Lemma streq_false a b : streq a b = false <-> a <> b.
Proof. unfold streq. apply bool_decide_eq_false. Qed.

Lemma truthy_str s : truthy (VStr s) = true <-> s <> [].
Proof.
  simpl. rewrite negb_true_iff. apply streq_false.
Qed.

Lemma truthy_field f : truthy (ofField f) = false <-> f = None \/ f = Some [].
Proof.
  destruct f as [s|]; simpl.
  - rewrite negb_false_iff, streq_true. split.
    + intros ->. now right.
    + intros [H|H]; congruence.
  - split; auto.
Qed.

Lemma startsWith_app p s : startsWith (p ++ s) p = true.
Proof.
  induction p as [|x p IH]; simpl; [reflexivity|].
  now rewrite N.eqb_refl.
Qed.

Lemma startsWith_inv s p : startsWith s p = true -> exists r, s = p ++ r.
Proof.
  revert s. induction p as [|x p IH]; intros s H.
  - now exists s.
  - destruct s as [|y s]; simpl in H; [discriminate|].
    apply andb_true_iff in H as [Hxy Hs]. apply N.eqb_eq in Hxy. subst y.
    destruct (IH _ Hs) as [r ->]. now exists r.
Qed.

Lemma split_not_nil sep s : split sep s <> [].
Proof.
  destruct s as [|c s]; simpl; [discriminate|].
  destruct (c =? sep); [discriminate|].
  destruct (split sep s); discriminate.
Qed.

(** Up to the first separator: the first segment, and the segments of what
    follows it. *)
Lemma split_app_sep sep a b :
  sep ∉ a -> split sep (a ++ sep :: b) = a :: split sep b.
Proof.
  induction a as [|c a IH]; intros Ha; simpl.
  - now rewrite N.eqb_refl.
  - apply not_elem_of_cons in Ha as [Hc Ha].
    assert ((c =? sep) = false) as -> by (apply N.eqb_neq; congruence).
    now rewrite IH.
Qed.

(** A prefix without a separator stays in front of the first segment. *)
Lemma split_app_head sep a b :
  sep ∉ a ->
  exists seg segs, split sep b = seg :: segs /\ split sep (a ++ b) = (a ++ seg) :: segs.
Proof.
  intros Ha. destruct (split sep b) as [|seg segs] eqn:Hb.
  - now apply split_not_nil in Hb.
  - exists seg, segs. split; [reflexivity|].
    induction a as [|c a IH]; simpl; [assumption|].
    apply not_elem_of_cons in Ha as [Hc Ha].
    assert ((c =? sep) = false) as -> by (apply N.eqb_neq; congruence).
    now rewrite (IH Ha).
Qed.

Lemma split_no_sep sep a : sep ∉ a -> split sep a = [a].
Proof.
  intros Ha. destruct (split_app_head sep a [] Ha) as (seg & segs & H1 & H2).
  simpl in H1. injection H1 as <- <-. now rewrite !app_nil_r in H2.
Qed.

(** No segment holds the separator. *)
Lemma split_segments sep s : Forall (fun seg => sep ∉ seg) (split sep s).
Proof.
  induction s as [|c s IH]; simpl.
  - constructor; [apply not_elem_of_nil | constructor].
  - destruct (c =? sep) eqn:Hc.
    + constructor; [apply not_elem_of_nil | assumption].
    + apply N.eqb_neq in Hc.
      destruct (split sep s) as [|seg segs]; [repeat constructor|].
      * apply not_elem_of_cons. split; [congruence | apply not_elem_of_nil].
      * inversion IH; subst. constructor; [|assumption].
        apply not_elem_of_cons. split; [congruence | assumption].
Qed.

(** *** Decimal digits *)

Lemma digits_fuel_acc fuel n acc :
  digits_fuel fuel n acc = digits_fuel fuel n [] ++ acc.
Proof.
  revert n acc. induction fuel as [|fuel IH]; intros n acc; simpl; [reflexivity|].
  destruct (n <? 10); [reflexivity|].
  rewrite IH. rewrite (IH _ [_]). now rewrite <- app_assoc.
Qed.

Lemma digits_fuel_S fuel n :
  digits_fuel (S fuel) n [] =
  if n <? 10 then [48 + n] else digits_fuel fuel (n / 10) [] ++ [48 + n mod 10].
Proof.
  simpl. destruct (n <? 10) eqn:Hn.
  - apply N.ltb_lt in Hn. now rewrite N.mod_small.
  - apply digits_fuel_acc.
Qed.

Lemma digits_fuel_isDigit fuel n : Forall isDigit (digits_fuel fuel n []).
Proof.
  revert n. induction fuel as [|fuel IH]; intros n; [constructor|].
  rewrite digits_fuel_S. destruct (n <? 10) eqn:Hn.
  - apply N.ltb_lt in Hn. constructor; [unfold isDigit; lia | constructor].
  - apply Forall_app. split; [apply IH|].
    pose proof (N.mod_upper_bound n 10 ltac:(lia)) as Hm.
    constructor; [|constructor].
    unfold isDigit. revert Hm. generalize (n mod 10). intros m Hm. lia.
Qed.

Lemma digits_fuel_not_nil fuel n : digits_fuel (S fuel) n [] <> [].
Proof.
  rewrite digits_fuel_S. destruct (n <? 10); [discriminate|].
  intros H. apply app_eq_nil in H as [_ H]. discriminate.
Qed.

Lemma decimalValue_snoc s c : decimalValue (s ++ [c]) = decimalValue s * 10 + (c - 48).
Proof. unfold decimalValue. now rewrite fold_left_app. Qed.

Lemma digits_fuel_value fuel n :
  n < 2 ^ N.of_nat fuel -> decimalValue (digits_fuel fuel n []) = n.
Proof.
  revert n. induction fuel as [|fuel IH]; intros n Hn.
  - simpl in *. unfold decimalValue. simpl. lia.
  - rewrite digits_fuel_S. destruct (n <? 10) eqn:H10.
    + apply N.ltb_lt in H10. unfold decimalValue. simpl. lia.
    + apply N.ltb_ge in H10.
      rewrite decimalValue_snoc, IH.
      * pose proof (N.div_mod n 10 ltac:(lia)) as Hdm.
        pose proof (N.mod_upper_bound n 10 ltac:(lia)) as Hm.
        revert Hdm Hm. generalize (n mod 10), (n / 10). intros m q Hdm Hm. lia.
      * rewrite Nat2N.inj_succ, N.pow_succ_r' in Hn.
        apply N.Div0.div_lt_upper_bound. lia.
Qed.

Lemma digits_isDigit n : Forall isDigit (digits n).
Proof. apply digits_fuel_isDigit. Qed.

Lemma digits_not_nil n : digits n <> [].
Proof. apply digits_fuel_not_nil. Qed.

Lemma digits_value n : decimalValue (digits n) = n.
Proof.
  apply digits_fuel_value.
  rewrite Nat2N.inj_succ, N2Nat.id.
  destruct (N.eq_dec n 0) as [->|Hn]; [reflexivity|].
  apply N.log2_spec. lia.
Qed.

Lemma isDigit_value c : isDigit c -> digitValue 10 c = Some (c - 48).
Proof.
  intros [H1 H2]. unfold digitValue.
  assert (((48 <=? c) && (c <=? 57)) = true) as ->
    by (apply andb_true_iff; split; apply N.leb_le; lia).
  assert ((c - 48 <? 10) = true) as -> by (apply N.ltb_lt; lia).
  reflexivity.
Qed.

Lemma isDigit_not_space c : isDigit c -> isWhiteSpace c = false.
Proof.
  intros [H1 H2]. unfold isWhiteSpace.
  repeat (apply orb_false_iff; split);
    try (apply N.eqb_neq; lia);
    apply andb_false_iff; [right | left]; apply N.leb_gt; lia.
Qed.

Lemma leadingDigits_all s :
  Forall isDigit s -> leadingDigits 10 s = (fun c => c - 48) <$> s.
Proof.
  induction 1 as [|c s Hc Hs IH]; simpl; [reflexivity|].
  now rewrite (isDigit_value c Hc), IH.
Qed.

Lemma digitsValue_fmap s :
  digitsValue 10 ((fun c => c - 48) <$> s) = decimalValue s.
Proof.
  unfold digitsValue, decimalValue. generalize 0.
  induction s as [|c s IH]; intros a; simpl; [reflexivity|]. apply IH.
Qed.

(** [parseInt(String(n))] is [n] for a number that is not negative. *)
Lemma parseInt_digits n : parseInt (digits n) = Some (Z.of_N n).
Proof.
  pose proof (digits_isDigit n) as Hd.
  pose proof (digits_not_nil n) as Hn.
  pose proof (digits_value n) as Hv.
  destruct (digits n) as [|c s] eqn:E; [congruence|].
  apply Forall_cons in Hd as [Hc Hs].
  unfold parseInt. simpl skipWhiteSpace.
  rewrite (isDigit_not_space c Hc).
  assert ((c =? 45) = false) as -> by (apply N.eqb_neq; destruct Hc; lia).
  assert ((c =? 43) = false) as -> by (apply N.eqb_neq; destruct Hc; lia).
  assert (leadingDigits 10 (c :: s) = (fun c => c - 48) <$> (c :: s)) as Hl
    by (apply leadingDigits_all; now constructor).
  assert (Some (Z.mul 1 (Z.of_N (digitsValue 10 ((fun c => c - 48) <$> (c :: s)))))
          = Some (Z.of_N n)) as Hres
    by (rewrite digitsValue_fmap, Hv; f_equal; lia).
  destruct s as [|c2 s'].
  - rewrite Hl. exact Hres.
  - apply Forall_cons in Hs as [Hc2 _].
    assert (((c2 =? 120) || (c2 =? 88)) = false) as ->.
    { apply orb_false_iff. split; apply N.eqb_neq; destruct Hc2; lia. }
    rewrite andb_false_r, Hl. exact Hres.
Qed.

Lemma toString_nonneg n : (0 <= n)%Z -> toString n = digits (Z.to_N n).
Proof.
  intros Hn. unfold toString.
  now assert ((n <? 0)%Z = false) as -> by (apply Z.ltb_ge; lia).
Qed.

Lemma parseInt_toString n : (0 <= n)%Z -> parseInt (toString n) = Some n.
Proof.
  intros Hn. rewrite toString_nonneg, parseInt_digits by assumption.
  f_equal. lia.
Qed.

Lemma isDigit_not_in c s : ~ isDigit c -> Forall isDigit s -> c ∉ s.
Proof.
  intros Hc Hs Hin. rewrite Forall_forall in Hs. apply Hc, Hs, Hin.
Qed.

Lemma toString_no_dash n : (0 <= n)%Z -> 45 ∉ toString n.
Proof.
  intros Hn. rewrite toString_nonneg by assumption.
  apply isDigit_not_in; [unfold isDigit; lia | apply digits_isDigit].
Qed.

Lemma toString_no_space n : 32 ∉ toString n.
Proof.
  unfold toString. destruct (n <? 0)%Z.
  - apply not_elem_of_cons. split; [lia|].
    apply isDigit_not_in; [unfold isDigit; lia | apply digits_isDigit].
  - apply isDigit_not_in; [unfold isDigit; lia | apply digits_isDigit].
Qed.

End JsFacts.

(** ** The matcher decides the language of an expression *)

Module RegexFacts.

Import Regex.
Local Open Scope N_scope.

Lemma lang_nil_nullable r s : lang r s -> s = [] -> nullable r = true.
Proof.
  induction 1 as [ | p c Hp | r1 r2 s1 s2 _ IH1 _ IH2 | r1 r2 s _ IH
                 | r1 r2 s _ IH | r | r s1 s2 _ _ _ _ ]; intros Hs; simpl.
  - reflexivity.
  - discriminate.
  - apply app_eq_nil in Hs as [-> ->]. now rewrite IH1, IH2.
  - now rewrite IH.
  - rewrite IH by assumption. apply orb_true_r.
  - reflexivity.
  - reflexivity.
Qed.

Lemma nullable_lang_nil r : nullable r = true -> lang r [].
Proof.
  induction r as [ | | p | r1 IH1 r2 IH2 | r1 IH1 r2 IH2 | r IH ]; simpl; intros H.
  - discriminate.
  - constructor.
  - discriminate.
  - apply andb_true_iff in H as [H1 H2].
    change (@nil N) with (@nil N ++ []). constructor; auto.
  - apply orb_true_iff in H as [H|H]; [apply lang_alt_l | apply lang_alt_r]; auto.
  - constructor.
Qed.

Lemma nullable_spec r : nullable r = true <-> lang r [].
Proof.
  split; [apply nullable_lang_nil | intros H; now apply (lang_nil_nullable r [])].
Qed.

(** The derivative accepts the tails of the strings that start with [c]. *)
Lemma deriv_sound c r : forall s, lang (deriv c r) s -> lang r (c :: s).
Proof.
  induction r as [ | | p | r1 IH1 r2 IH2 | r1 IH1 r2 IH2 | r IH ]; simpl; intros s H.
  - inversion H.
  - inversion H.
  - destruct (p c) eqn:Hp; inversion H; subst. now constructor.
  - destruct (nullable r1) eqn:Hn.
    + inversion H as [ | | | ? ? ? H' | ? ? ? H' | | ]; subst.
      * inversion H' as [ | | ? ? s1 s2 Ha Hb | | | | ]; subst.
        change (c :: s1 ++ s2) with ((c :: s1) ++ s2). constructor; auto.
      * change (c :: s) with ([] ++ c :: s).
        constructor; [now apply nullable_lang_nil | auto].
    + inversion H as [ | | ? ? s1 s2 Ha Hb | | | | ]; subst.
      change (c :: s1 ++ s2) with ((c :: s1) ++ s2). constructor; auto.
  - inversion H; subst; [apply lang_alt_l | apply lang_alt_r]; auto.
  - inversion H as [ | | ? ? s1 s2 Ha Hb | | | | ]; subst.
    change (c :: s1 ++ s2) with ((c :: s1) ++ s2). constructor; auto.
Qed.

Lemma deriv_complete c r s0 :
  lang r s0 -> forall s, s0 = c :: s -> lang (deriv c r) s.
Proof.
  induction 1 as [ | p c' Hp | r1 r2 s1 s2 H1 IH1 H2 IH2 | r1 r2 s' _ IH
                 | r1 r2 s' _ IH | r | r s1 s2 H1 IH1 H2 IH2 ]; intros s Hs; simpl.
  - discriminate.
  - injection Hs as -> <-. rewrite Hp. constructor.
  - destruct s1 as [|c1 s1'].
    + simpl in Hs. subst s2.
      rewrite (lang_nil_nullable r1 [] H1 eq_refl).
      apply lang_alt_r. now apply IH2.
    + simpl in Hs. injection Hs as -> <-.
      destruct (nullable r1); [apply lang_alt_l|]; constructor; auto.
  - apply lang_alt_l. auto.
  - apply lang_alt_r. auto.
  - discriminate.
  - destruct s1 as [|c1 s1'].
    + simpl in Hs. now apply IH2.
    + simpl in Hs. injection Hs as -> <-. constructor; auto.
Qed.

Lemma deriv_spec c r s : lang (deriv c r) s <-> lang r (c :: s).
Proof.
  split; [apply deriv_sound | intros H; now apply (deriv_complete c r (c :: s))].
Qed.

Theorem test_spec r s : test r s = true <-> lang r s.
Proof.
  revert r. induction s as [|c s IH]; intros r; simpl.
  - apply nullable_spec.
  - rewrite IH. apply deriv_spec.
Qed.

(** *** The shapes [emailRegex] is built from *)

Lemma lang_seq_inv r1 r2 s :
  lang (Seq r1 r2) s <-> exists s1 s2, s = s1 ++ s2 /\ lang r1 s1 /\ lang r2 s2.
Proof.
  split.
  - intros H. inversion H; subst. eauto.
  - intros (s1 & s2 & -> & H1 & H2). now constructor.
Qed.

Lemma lang_class_inv p s : lang (Class p) s <-> exists c, s = [c] /\ p c = true.
Proof.
  split.
  - intros H. inversion H; subst. eauto.
  - intros (c & -> & Hp). now constructor.
Qed.

Lemma lang_chr_inv c s : lang (Chr c) s <-> s = [c].
Proof.
  unfold Chr. rewrite lang_class_inv. split.
  - intros (c' & -> & Hc). apply N.eqb_eq in Hc. now subst.
  - intros ->. exists c. split; [reflexivity | apply N.eqb_refl].
Qed.

Lemma lang_star_class p s0 r :
  lang r s0 -> r = Star (Class p) -> Forall (fun c => p c = true) s0.
Proof.
  induction 1 as [ | | | | | r' | r' s1 s2 H1 _ H2 IH2 ]; intros Hr; try discriminate.
  - constructor.
  - injection Hr as ->. apply Forall_app. split; [|now apply IH2].
    inversion H1; subst. now repeat constructor.
Qed.

Lemma lang_star_class_inv p s :
  lang (Star (Class p)) s <-> Forall (fun c => p c = true) s.
Proof.
  split.
  - intros H. now apply (lang_star_class p s (Star (Class p))).
  - induction 1 as [|c s Hc Hs IH]; [constructor|].
    change (c :: s) with ([c] ++ s). constructor; [now constructor | assumption].
Qed.

Lemma lang_plus_class_inv p s :
  lang (Plus (Class p)) s <-> s <> [] /\ Forall (fun c => p c = true) s.
Proof.
  unfold Plus. rewrite lang_seq_inv. split.
  - intros (s1 & s2 & -> & H1 & H2).
    apply lang_class_inv in H1 as (c & -> & Hc).
    apply lang_star_class_inv in H2.
    split; [discriminate | now constructor].
  - intros [Hn Hs]. destruct s as [|c s]; [congruence|].
    apply Forall_cons in Hs as [Hc Hs].
    exists [c], s. split; [reflexivity|].
    split; [now apply lang_class_inv; exists c | now apply lang_star_class_inv].
Qed.

End RegexFacts.

(** ** The service *)

Module ServiceFacts.

Import Js Handlers JsFacts.
Local Open Scope N_scope.

Lemma notSpaceAt_spec c : notSpaceAt c = true <-> Spec.plainChar c.
Proof.
  unfold notSpaceAt, Spec.plainChar.
  rewrite negb_true_iff, orb_false_iff, N.eqb_neq. reflexivity.
Qed.

Lemma Forall_notSpaceAt s :
  Forall (fun c => notSpaceAt c = true) s <-> Forall Spec.plainChar s.
Proof. apply Forall_proper; [intros c; apply notSpaceAt_spec | reflexivity]. Qed.

(** [emailRegex.test(s)] holds exactly for the strings of the
    [local@domain.tld] shape. *)
Lemma emailRegex_shape s : Regex.test emailRegex s = true <-> Spec.emailShape s.
Proof.
  rewrite RegexFacts.test_spec. unfold emailRegex, Spec.emailShape. split.
  - intros H.
    apply RegexFacts.lang_seq_inv in H as (l & s1 & -> & Hl & H).
    apply RegexFacts.lang_seq_inv in H as (a & s2 & -> & Ha & H).
    apply RegexFacts.lang_seq_inv in H as (d & s3 & -> & Hd & H).
    apply RegexFacts.lang_seq_inv in H as (o & t & -> & Ho & Ht).
    apply RegexFacts.lang_chr_inv in Ha as ->.
    apply RegexFacts.lang_chr_inv in Ho as ->.
    apply RegexFacts.lang_plus_class_inv in Hl as [Hl1 Hl2].
    apply RegexFacts.lang_plus_class_inv in Hd as [Hd1 Hd2].
    apply RegexFacts.lang_plus_class_inv in Ht as [Ht1 Ht2].
    exists l, d, t. rewrite <- !Forall_notSpaceAt. auto 10.
  - intros (l & d & t & -> & Hl & Hd & Ht & Fl & Fd & Ft).
    rewrite <- Forall_notSpaceAt in Fl, Fd, Ft.
    apply RegexFacts.lang_seq_inv. exists l, ([64] ++ d ++ [46] ++ t).
    split; [reflexivity|]. split; [now apply RegexFacts.lang_plus_class_inv|].
    apply RegexFacts.lang_seq_inv. exists [64], (d ++ [46] ++ t).
    split; [reflexivity|]. split; [now apply RegexFacts.lang_chr_inv|].
    apply RegexFacts.lang_seq_inv. exists d, ([46] ++ t).
    split; [reflexivity|]. split; [now apply RegexFacts.lang_plus_class_inv|].
    apply RegexFacts.lang_seq_inv. exists [46], t.
    split; [reflexivity|]. split; [now apply RegexFacts.lang_chr_inv|].
    now apply RegexFacts.lang_plus_class_inv.
Qed.

Lemma emailShape_not_nil s : Spec.emailShape s -> s <> [].
Proof.
  intros (l & d & t & -> & Hl & _) H. apply app_eq_nil in H as [H _]. congruence.
Qed.

Lemma emailRegex_not_shape s : Regex.test emailRegex s = false <-> ~ Spec.emailShape s.
Proof.
  rewrite <- emailRegex_shape. destruct (Regex.test emailRegex s); split; easy.
Qed.

(** The guard [!email || !password] of [login] and [signup]. *)
Lemma required_guard e p :
  negb (truthy (ofField e)) || negb (truthy (ofField p)) = true
  <-> Spec.missing e \/ Spec.missing p.
Proof.
  unfold Spec.missing.
  rewrite orb_true_iff, !negb_true_iff, !truthy_field. reflexivity.
Qed.

Lemma required_guard_pass e p :
  e <> [] -> p <> [] ->
  negb (truthy (ofField (Some e))) || negb (truthy (ofField (Some p))) = false.
Proof.
  intros He Hp. simpl.
  apply streq_false in He, Hp. unfold streq in *. now rewrite He, Hp.
Qed.

Lemma findByEmail_email db e u : findByEmail db e = Some u -> User.email u = e.
Proof.
  intros H. apply find_some in H as [_ H]. now apply streq_true in H.
Qed.

Lemma findByEmail_In db e u : findByEmail db e = Some u -> In u (users db).
Proof. intros H. now apply find_some in H as [H _]. Qed.

Lemma findById_id db n u : findById db (Some n) = Some u -> User.id u = n.
Proof.
  intros H. apply find_some in H as [_ H]. now apply Z.eqb_eq in H.
Qed.

(** With identifiers that are unique in the store, looking a stored user up
    by its identifier finds that user. *)
Lemma findById_unique db u :
  NoDup (User.id <$> users db) -> In u (users db) ->
  findById db (Some (User.id u)) = Some u.
Proof.
  unfold findById. induction (users db) as [|v l IH]; intros Hnd Hin; [easy|].
  simpl in *. apply NoDup_cons in Hnd as [Hv Hnd].
  destruct Hin as [->|Hin].
  - now rewrite Z.eqb_refl.
  - destruct (User.id v =? User.id u)%Z eqn:E.
    + apply Z.eqb_eq in E. exfalso. apply Hv. rewrite E.
      apply list_elem_of_fmap. exists u. split; [reflexivity|].
      now apply list_elem_of_In.
    + now apply IH.
Qed.

End ServiceFacts.

(** ** Signup: the order of the checks *)

Module SignupFacts.

Import Js Handlers JsFacts ServiceFacts.
Local Open Scope N_scope.

Lemma signup_required db e p f l iso now :
  Spec.missing e \/ Spec.missing p ->
  signup db e p f l iso now = failure 400 "Email and password are required".
Proof.
  intros H. apply required_guard in H. unfold signup. now rewrite H.
Qed.

(** Past the first guard, [signup] is a cascade of three tests. *)
Lemma signup_present db e p f l iso now :
  e <> [] -> p <> [] ->
  signup db (Some e) (Some p) f l iso now =
  if negb (Regex.test emailRegex e) then failure 400 "Invalid email format"
  else if N.of_nat (length p) <? 6 then
    failure 400 "Password must be at least 6 characters long"
  else match findByEmail db e with
       | Some _ => failure 409 "User with this email already exists"
       | None =>
           let newUser_id := (Z.of_nat (length (users db)) + 1)%Z in
           {| status := 201;
              body := VObj [
                ("success", VBool true);
                ("message", VStr (lit "User created successfully"));
                ("data", VObj [
                   ("user", VObj [
                      ("id", VNum newUser_id);
                      ("email", VStr e);
                      ("firstName", orNull (ofField f));
                      ("lastName", orNull (ofField l));
                      ("createdAt", VStr iso)]);
                   ("token", VStr (generateMockToken newUser_id e now))])]%string |}
       end.
Proof.
  intros He Hp. unfold signup. now rewrite (required_guard_pass e p He Hp).
Qed.

Section Present.

Context (db : Db) (e p : jstring) (f l : option jstring) (iso : jstring) (now : Z).
Context (He : e <> []) (Hp : p <> []).

Lemma signup_bad_format :
  ~ Spec.emailShape e ->
  signup db (Some e) (Some p) f l iso now = failure 400 "Invalid email format".
Proof.
  intros Hs. apply emailRegex_not_shape in Hs.
  now rewrite signup_present, Hs.
Qed.

Lemma signup_short_password :
  Spec.emailShape e -> (length p < 6)%nat ->
  signup db (Some e) (Some p) f l iso now =
  failure 400 "Password must be at least 6 characters long".
Proof.
  intros Hs Hlen. apply emailRegex_shape in Hs.
  rewrite signup_present, Hs by assumption. simpl negb. cbv iota.
  now assert ((N.of_nat (length p) <? 6) = true) as -> by (apply N.ltb_lt; lia).
Qed.

Lemma signup_checked :
  Spec.emailShape e -> (6 <= length p)%nat ->
  signup db (Some e) (Some p) f l iso now =
  match findByEmail db e with
  | Some _ => failure 409 "User with this email already exists"
  | None =>
      let newUser_id := (Z.of_nat (length (users db)) + 1)%Z in
      {| status := 201;
         body := VObj [
           ("success", VBool true);
           ("message", VStr (lit "User created successfully"));
           ("data", VObj [
              ("user", VObj [
                 ("id", VNum newUser_id);
                 ("email", VStr e);
                 ("firstName", orNull (ofField f));
                 ("lastName", orNull (ofField l));
                 ("createdAt", VStr iso)]);
              ("token", VStr (generateMockToken newUser_id e now))])]%string |}
  end.
Proof.
  intros Hs Hlen. apply emailRegex_shape in Hs.
  rewrite signup_present, Hs by assumption. simpl negb. cbv iota.
  now assert ((N.of_nat (length p) <? 6) = false) as -> by (apply N.ltb_ge; lia).
Qed.

Lemma signup_conflict :
  Spec.emailShape e -> (6 <= length p)%nat -> is_Some (findByEmail db e) ->
  signup db (Some e) (Some p) f l iso now =
  failure 409 "User with this email already exists".
Proof.
  intros Hs Hlen [u Hu]. now rewrite signup_checked, Hu.
Qed.

Lemma signup_created :
  Spec.emailShape e -> (6 <= length p)%nat -> findByEmail db e = None ->
  let r := signup db (Some e) (Some p) f l iso now in
  let newId := (Z.of_nat (length (users db)) + 1)%Z in
  status r = 201%Z
  /\ succeeded r = true
  /\ dataUser r = Some (VObj [
       ("id", VNum newId);
       ("email", VStr e);
       ("firstName", orNull (ofField f));
       ("lastName", orNull (ofField l));
       ("createdAt", VStr iso)]%string)
  /\ dataToken r = Some (VStr (generateMockToken newId e now)).
Proof.
  intros Hs Hlen Hu. cbv zeta. rewrite signup_checked, Hu by assumption.
  repeat split.
Qed.

End Present.

(** C4, as the code has it. Signup applies its checks in a fixed order and
    the first one that fails decides the response: a missing or empty
    email or password gives 400 "Email and password are required" whatever
    the other fields are; then an email that is not of the
    [local@domain.tld] shape gives 400 "Invalid email format"; then a
    password shorter than 6 gives 400 "Password must be at least 6
    characters long"; then an email already in the store gives 409;
    otherwise the response is 201 with the record of the new user and its
    token. That record is made for the response only: the store after the
    request is the store before it, and the email is still not in it. *)
Theorem signup_validation_order db e p f l iso now :
  (Spec.missing e \/ Spec.missing p ->
   signup db e p f l iso now = failure 400 "Email and password are required")
  /\
  (forall e' p', e = Some e' -> p = Some p' -> e' <> [] -> p' <> [] ->
     (~ Spec.emailShape e' ->
      signup db e p f l iso now = failure 400 "Invalid email format")
     /\
     (Spec.emailShape e' -> (length p' < 6)%nat ->
      signup db e p f l iso now =
      failure 400 "Password must be at least 6 characters long")
     /\
     (Spec.emailShape e' -> (6 <= length p')%nat ->
      is_Some (findByEmail db e') ->
      signup db e p f l iso now =
      failure 409 "User with this email already exists")
     /\
     (Spec.emailShape e' -> (6 <= length p')%nat ->
      findByEmail db e' = None ->
      let r := signup db e p f l iso now in
      let newId := (Z.of_nat (length (users db)) + 1)%Z in
      status r = 201%Z
      /\ succeeded r = true
      /\ dataUser r = Some (VObj [
           ("id", VNum newId);
           ("email", VStr e');
           ("firstName", orNull (ofField f));
           ("lastName", orNull (ofField l));
           ("createdAt", VStr iso)]%string)
      /\ dataToken r = Some (VStr (generateMockToken newId e' now))
      /\ fst (handle db (PostSignup e p f l iso now)) = r
      /\ snd (handle db (PostSignup e p f l iso now)) = db
      /\ findByEmail (snd (handle db (PostSignup e p f l iso now))) e' = None)).
Proof.
  split; [apply signup_required|].
  intros e' p' -> -> He Hp. split; [|split; [|split]].
  - now apply signup_bad_format.
  - now apply signup_short_password.
  - now apply signup_conflict.
  - intros Hs Hlen Hu. cbv zeta.
    destruct (signup_created db e' p' f l iso now He Hp Hs Hlen Hu) as (H1 & H2 & H3 & H4).
    split; [exact H1|]. split; [exact H2|]. split; [exact H3|]. split; [exact H4|].
    split; [reflexivity|]. split; [reflexivity | exact Hu].
Qed.

(** C4 as stated fails in its last step: after the signup of a new email is
    answered 201, no user with that email is in the store; the user is not
    created there. *)
Lemma signup_created_not_stored :
  let rq := PostSignup (Some (lit "newuser@example.com")) (Some (lit "password123"))
              (Some (lit "New")) (Some (lit "User"))
              (lit "2024-02-01T00:00:00.000Z") 1706745600000 in
  status (fst (handle mockDb rq)) = 201%Z
  /\ snd (handle mockDb rq) = mockDb
  /\ findByEmail (snd (handle mockDb rq)) (lit "newuser@example.com") = None
  /\ ~ (exists u, In u (users (snd (handle mockDb rq)))
                  /\ User.email u = lit "newuser@example.com").
Proof.
  cbv zeta. split; [reflexivity|]. split; [reflexivity|]. split; [reflexivity|].
  intros (u & Hin & He). simpl in Hin.
  destruct Hin as [<-|[<-|[]]]; vm_compute in He; discriminate He.
Qed.

End SignupFacts.

(** ** Login *)

Module LoginFacts.

Import Js Handlers JsFacts ServiceFacts.
Local Open Scope N_scope.

Lemma login_required db e p now :
  Spec.missing e \/ Spec.missing p ->
  login db e p now = failure 400 "Email and password are required".
Proof.
  intros H. apply required_guard in H. unfold login. now rewrite H.
Qed.

Section Present.

Context (db : Db) (e p : jstring) (now : Z).
Context (He : e <> []) (Hp : p <> []).

(** Past the guard, [login] looks the user and the password up. *)
Lemma login_present :
  login db (Some e) (Some p) now =
  match findByEmail db e with
  | Some user =>
      if negb (bool_decide (Some p = credentials db !! e)) then
        failure 401 "Invalid email or password"
      else Spec.loggedIn user (generateMockToken (User.id user) (User.email user) now)
  | None => failure 401 "Invalid email or password"
  end.
Proof.
  unfold login. now rewrite (required_guard_pass e p He Hp).
Qed.

Lemma login_unknown_email :
  findByEmail db e = None ->
  login db (Some e) (Some p) now = failure 401 "Invalid email or password".
Proof. intros H. now rewrite login_present, H. Qed.

Lemma login_wrong_password :
  credentials db !! e <> Some p ->
  login db (Some e) (Some p) now = failure 401 "Invalid email or password".
Proof.
  intros H. rewrite login_present.
  destruct (findByEmail db e); [|reflexivity].
  rewrite bool_decide_eq_false_2; [reflexivity | congruence].
Qed.

Lemma login_ok u :
  findByEmail db e = Some u -> credentials db !! e = Some p ->
  login db (Some e) (Some p) now =
  Spec.loggedIn u (generateMockToken (User.id u) (User.email u) now).
Proof.
  intros Hu Hc. rewrite login_present, Hu.
  now rewrite bool_decide_eq_true_2.
Qed.

(** The response of [login] is one of two. *)
Lemma login_cases :
  (exists u, findByEmail db e = Some u /\ credentials db !! e = Some p
             /\ login db (Some e) (Some p) now =
                Spec.loggedIn u (generateMockToken (User.id u) (User.email u) now))
  \/ ((findByEmail db e = None \/ credentials db !! e <> Some p)
      /\ login db (Some e) (Some p) now = failure 401 "Invalid email or password").
Proof.
  destruct (findByEmail db e) as [u|] eqn:Hu.
  - destruct (decide (credentials db !! e = Some p)) as [Hc|Hc].
    + left. exists u. auto using login_ok.
    + right. auto using login_wrong_password.
  - right. auto using login_unknown_email.
Qed.

End Present.

(** C3. A login with an email the store does not know and a login with a
    known email and a password that fails verification get the same
    response, 401 with the message "Invalid email or password": nothing in
    the response tells the two causes apart. *)
Theorem login_enumeration_resistance db e1 p1 now1 e2 p2 now2 :
  e1 <> [] -> p1 <> [] -> e2 <> [] -> p2 <> [] ->
  findByEmail db e1 = None ->
  is_Some (findByEmail db e2) -> credentials db !! e2 <> Some p2 ->
  login db (Some e1) (Some p1) now1 = failure 401 "Invalid email or password"
  /\ login db (Some e2) (Some p2) now2 = failure 401 "Invalid email or password"
  /\ login db (Some e1) (Some p1) now1 = login db (Some e2) (Some p2) now2.
Proof.
  intros He1 Hp1 He2 Hp2 Hunknown _ Hwrong.
  rewrite (login_unknown_email db e1 p1 now1) by assumption.
  now rewrite (login_wrong_password db e2 p2 now2) by assumption.
Qed.

(** C5. Login checks that email and password are present and never how
    long the password is: with both present the response is 200 or 401,
    never 400 and never the password-length message, whatever the length
    of the password; with a known email and a wrong password, however
    short, it is 401. *)
Theorem login_no_length_check db e p now :
  e <> [] -> p <> [] ->
  let r := login db (Some e) (Some p) now in
  (status r = 200%Z \/ status r = 401%Z)
  /\ status r <> 400%Z
  /\ message r <> VStr (lit "Password must be at least 6 characters long")
  /\ (is_Some (findByEmail db e) -> credentials db !! e <> Some p ->
      r = failure 401 "Invalid email or password")
  /\ (is_Some (findByEmail db e) -> credentials db !! e = Some p ->
      status r = 200%Z).
Proof.
  intros He Hp r. subst r.
  destruct (login_cases db e p now He Hp) as [(u & Hu & Hc & ->)|[Hf ->]].
  - repeat split; try (simpl; auto; discriminate).
    intros _ Hw. congruence.
  - repeat split; try (simpl; auto; discriminate).
    intros [u Hu] Hc. destruct Hf; congruence.
Qed.

End LoginFacts.

(** ** The current user *)

Module MeFacts.

Import Js Handlers JsFacts ServiceFacts.
Local Open Scope N_scope.

Lemma startsWith_not_nil s p : p <> [] -> startsWith s p = true -> s <> [].
Proof.
  intros Hp H ->. destruct p; [congruence | discriminate].
Qed.

Lemma me_no_header db : me db None = failure 401 "No token provided".
Proof. reflexivity. Qed.

Lemma me_not_bearer db h :
  startsWith h (lit "Bearer ") = false ->
  me db (Some h) = failure 401 "No token provided".
Proof.
  intros H. unfold me. rewrite H. now rewrite orb_true_r.
Qed.

(** With a header that starts with [Bearer ], [me] goes on with the token
    [authHeader.split(' ')[1]]. *)
Lemma me_bearer db h :
  startsWith h (lit "Bearer ") = true ->
  me db (Some h) =
  let token := split 32 h !! 1%nat in
  if negb (truthy (ofField token))
     || negb (startsWith (valToString (ofField token)) Spec.tokenPrefix) then
    failure 401 "Invalid or expired token"
  else
    match findById db (Spec.fourthSegment (valToString (ofField token))) with
    | None => failure 404 "User not found"
    | Some user => Spec.currentUser user
    end.
Proof.
  intros H. unfold me. rewrite H.
  assert (truthy (VStr h) = true) as ->
    by (apply truthy_str; now apply (startsWith_not_nil h (lit "Bearer "))).
  reflexivity.
Qed.

Lemma me_invalid_token db h :
  startsWith h (lit "Bearer ") = true ->
  (forall t, split 32 h !! 1%nat = Some t ->
             t = [] \/ startsWith t Spec.tokenPrefix = false) ->
  me db (Some h) = failure 401 "Invalid or expired token".
Proof.
  intros Hb Ht. rewrite me_bearer by assumption. cbv zeta.
  destruct (split 32 h !! 1%nat) as [t|]; [|reflexivity].
  destruct (Ht t eq_refl) as [->|Hp]; [reflexivity|].
  simpl ofField. simpl valToString. rewrite Hp. now rewrite orb_true_r.
Qed.

(** Past both guards, the response depends on the lookup of the number the
    fourth segment parses to. *)
Lemma me_valid_token db h t :
  startsWith h (lit "Bearer ") = true ->
  split 32 h !! 1%nat = Some t ->
  startsWith t Spec.tokenPrefix = true ->
  me db (Some h) =
  match findById db (Spec.fourthSegment t) with
  | None => failure 404 "User not found"
  | Some user => Spec.currentUser user
  end.
Proof.
  intros Hb Ht Hp. rewrite me_bearer by assumption. cbv zeta. rewrite Ht.
  simpl ofField. simpl valToString. rewrite Hp.
  assert (truthy (VStr t) = true) as ->
    by (apply truthy_str; now apply (startsWith_not_nil t Spec.tokenPrefix)).
  reflexivity.
Qed.

(** The token of the header [Bearer t] is [t] up to its first space. *)
Lemma bearer_token t :
  split 32 (lit "Bearer " ++ t) !! 1%nat = head (split 32 t).
Proof.
  change (lit "Bearer " ++ t) with (lit "Bearer" ++ 32 :: t).
  rewrite split_app_sep by no_char.
  simpl. now destruct (split 32 t).
Qed.

Lemma bearer_token_no_space t :
  32 ∉ t -> split 32 (lit "Bearer " ++ t) !! 1%nat = Some t.
Proof.
  intros Ht. now rewrite bearer_token, split_no_sep.
Qed.

Lemma me_token db t :
  32 ∉ t -> startsWith t Spec.tokenPrefix = true ->
  me db (Some (lit "Bearer " ++ t)) =
  match findById db (Spec.fourthSegment t) with
  | None => failure 404 "User not found"
  | Some user => Spec.currentUser user
  end.
Proof.
  intros Hs Hp. apply me_valid_token; [apply startsWith_app | | assumption].
  now apply bearer_token_no_space.
Qed.

Lemma split_cons_other sep c s :
  c <> sep -> exists seg segs, split sep (c :: s) = (c :: seg) :: segs.
Proof.
  intros Hc. simpl.
  assert ((c =? sep) = false) as -> by now apply N.eqb_neq.
  destruct (split sep s) as [|seg segs]; eauto.
Qed.

(** *** Tokens made by [generateMockToken] *)

(** The token [me] reads from the header [Bearer t], for [t] made by
    [generateMockToken]: it starts with [mock-jwt-token-] and goes on with
    the identifier and a dash. *)
Lemma issued_token userId e now :
  exists rest,
    split 32 (lit "Bearer " ++ generateMockToken userId e now) !! 1%nat
    = Some (Spec.tokenPrefix ++ toString userId ++ 45 :: rest).
Proof.
  rewrite bearer_token. unfold generateMockToken.
  change (lit "-" ++ e ++ lit "-" ++ toString now)
    with (45 :: e ++ lit "-" ++ toString now).
  rewrite app_assoc.
  destruct (split_cons_other 32 45 (e ++ lit "-" ++ toString now)) as (seg & segs & Hs);
    [lia|].
  destruct (split_app_head 32 (lit "mock-jwt-token-" ++ toString userId)
              (45 :: e ++ lit "-" ++ toString now)) as (seg' & segs' & H1 & H2).
  - apply not_elem_of_app. split; [no_char | apply toString_no_space].
  - rewrite Hs in H1. injection H1 as <- <-.
    rewrite H2. simpl head. rewrite <- app_assoc. eauto.
Qed.

Lemma issued_token_prefix userId rest :
  startsWith (Spec.tokenPrefix ++ toString userId ++ 45 :: rest) Spec.tokenPrefix = true.
Proof. apply startsWith_app. Qed.

Lemma issued_token_id userId rest :
  (0 <= userId)%Z ->
  Spec.fourthSegment (Spec.tokenPrefix ++ toString userId ++ 45 :: rest) = Some userId.
Proof.
  intros Hid. unfold Spec.fourthSegment.
  change (Spec.tokenPrefix ++ toString userId ++ 45 :: rest)
    with (lit "mock" ++ 45 :: lit "jwt" ++ 45 :: lit "token" ++ 45 ::
          toString userId ++ 45 :: rest).
  rewrite split_app_sep by no_char.
  rewrite split_app_sep by no_char.
  rewrite split_app_sep by no_char.
  rewrite split_app_sep by now apply toString_no_dash.
  simpl. now apply parseInt_toString.
Qed.

(** [me] on a token made by [generateMockToken] never answers that the
    token is invalid or expired; for an identifier that is not negative it
    answers with the lookup of that identifier. *)
Lemma me_issued db userId e now :
  (0 <= userId)%Z ->
  me db (Some (lit "Bearer " ++ generateMockToken userId e now)) =
  match findById db (Some userId) with
  | None => failure 404 "User not found"
  | Some user => Spec.currentUser user
  end.
Proof.
  intros Hid. destruct (issued_token userId e now) as [rest Ht].
  rewrite (me_valid_token db _ _ (startsWith_app _ _) Ht (issued_token_prefix _ _)).
  now rewrite issued_token_id.
Qed.

Lemma me_issued_status db userId e now :
  let r := me db (Some (lit "Bearer " ++ generateMockToken userId e now)) in
  status r = 200%Z \/ r = failure 404 "User not found".
Proof.
  destruct (issued_token userId e now) as [rest Ht]. cbv zeta.
  rewrite (me_valid_token db _ _ (startsWith_app _ _) Ht (issued_token_prefix _ _)).
  destruct (findById db _); auto.
Qed.

(** *** The case analysis of [me] *)

(** C6, as the code has it. A request without an Authorization header, or
    with one that does not start with [Bearer ], gets 401 "No token
    provided". Otherwise the token is the text of the header between its
    first and its second space: an empty token or one that does not start
    with [mock-jwt-token-] gets 401 "Invalid or expired token"; a token
    whose fourth segment does not parse to the identifier of a stored
    user, also when it parses to no number at all, gets 404 "User not
    found"; any other token gets 200 with the user of that identifier. *)
Theorem me_case_analysis db h :
  (h = None \/ (exists h', h = Some h' /\ startsWith h' (lit "Bearer ") = false) ->
   me db h = failure 401 "No token provided")
  /\
  (forall h', h = Some h' -> startsWith h' (lit "Bearer ") = true ->
     ((forall t, split 32 h' !! 1%nat = Some t ->
                 t = [] \/ startsWith t Spec.tokenPrefix = false) ->
      me db h = failure 401 "Invalid or expired token")
     /\
     (forall t, split 32 h' !! 1%nat = Some t ->
                startsWith t Spec.tokenPrefix = true ->
        (Spec.fourthSegment t = None -> me db h = failure 404 "User not found")
        /\ (findById db (Spec.fourthSegment t) = None ->
            me db h = failure 404 "User not found")
        /\ (forall u, findById db (Spec.fourthSegment t) = Some u ->
            me db h = Spec.currentUser u))).
Proof.
  split.
  - intros [->|(h' & -> & Hb)]; [apply me_no_header | now apply me_not_bearer].
  - intros h' -> Hb. split.
    + now apply me_invalid_token.
    + intros t Ht Hp. rewrite (me_valid_token db h' t Hb Ht Hp).
      split; [|split].
      * now intros ->.
      * now intros ->.
      * now intros u ->.
Qed.

(** C6 as stated fails: the token [mock-jwt-token-abc] resolves to no user
    identifier, and the response is 404 "User not found", not 401. *)
Lemma me_unresolved_token_not_401 :
  Spec.resolvedId (lit "mock-jwt-token-abc") = None
  /\ me mockDb (Some (lit "Bearer mock-jwt-token-abc")) = failure 404 "User not found"
  /\ ~ (forall db t,
          Spec.resolvedId t = None ->
          me db (Some (lit "Bearer " ++ t)) = failure 401 "Invalid or expired token").
Proof.
  split; [reflexivity|]. split; [reflexivity|].
  intros H. specialize (H mockDb (lit "mock-jwt-token-abc") eq_refl).
  vm_compute in H. discriminate H.
Qed.

(** *** Which tokens [me] accepts *)

Lemma toString_not_nil n : toString n <> [].
Proof.
  unfold toString. destruct (n <? 0)%Z; [discriminate | apply digits_not_nil].
Qed.

(** No call of [generateMockToken] makes the token [mock-jwt-token-1]. *)
Lemma short_token_not_issued userId e now :
  generateMockToken userId e now <> lit "mock-jwt-token-1".
Proof.
  unfold generateMockToken.
  change (lit "mock-jwt-token-1") with (lit "mock-jwt-token-" ++ [49]).
  intros H. apply app_inv_head in H.
  pose proof (toString_not_nil userId) as Hn.
  destruct (toString userId) as [|c [|c' s]]; [congruence | discriminate H | discriminate H].
Qed.

(** C10, as the code has it. [me] reads a string passed as
    [Bearer <string>] up to its first space. It accepts every string whose
    text up to the first space starts with [mock-jwt-token-] and has a
    fourth segment that parses to the identifier of a stored user, in
    particular every such string without a space, and answers 200 with
    that user; such a string need not come from [generateMockToken]; and a
    token that [generateMockToken] made is never answered with "Invalid or
    expired token", whatever the clock reading in it: over the identifier
    of a stored user the answer is 200. *)
Theorem me_accepts_prefix_and_id db :
  (forall t t' n u,
     head (split 32 t) = Some t' ->
     startsWith t' Spec.tokenPrefix = true ->
     Spec.fourthSegment t' = Some n ->
     findById db (Some n) = Some u ->
     me db (Some (lit "Bearer " ++ t)) = Spec.currentUser u)
  /\
  (forall t n u,
     32 ∉ t ->
     startsWith t Spec.tokenPrefix = true ->
     Spec.fourthSegment t = Some n ->
     findById db (Some n) = Some u ->
     me db (Some (lit "Bearer " ++ t)) = Spec.currentUser u)
  /\
  ((forall userId e now, generateMockToken userId e now <> lit "mock-jwt-token-1")
   /\ status (me mockDb (Some (lit "Bearer mock-jwt-token-1"))) = 200%Z)
  /\
  (forall userId e now,
     me db (Some (lit "Bearer " ++ generateMockToken userId e now))
     <> failure 401 "Invalid or expired token")
  /\
  (forall u e now,
     In u (users db) -> (0 <= User.id u)%Z ->
     status (me db (Some (lit "Bearer " ++ generateMockToken (User.id u) e now)))
     = 200%Z).
Proof.
  split; [|split; [|split; [|split]]].
  - intros t t' n u Ht Hp Hn Hu.
    rewrite (me_valid_token db (lit "Bearer " ++ t) t'); [now rewrite Hn, Hu | | | assumption].
    + apply startsWith_app.
    + now rewrite bearer_token.
  - intros t n u Hs Hp Hn Hu. now rewrite me_token, Hn, Hu.
  - split; [apply short_token_not_issued | reflexivity].
  - intros userId e now.
    destruct (me_issued_status db userId e now) as [H| ->]; [|discriminate].
    intros E. rewrite E in H. discriminate H.
  - intros u e now Hin Hid. rewrite me_issued by assumption.
    destruct (findById db (Some (User.id u))) as [v|] eqn:E; [reflexivity|].
    pose proof (find_none _ _ E u Hin) as Hf. simpl in Hf.
    rewrite Z.eqb_refl in Hf. discriminate Hf.
Qed.

(** C10 as stated fails for a string with a space: [mock-jwt-token- 1]
    starts with the prefix and its fourth segment parses to 1, the
    identifier of a stored user, but [me] reads the token up to the space
    and answers 404. *)
Lemma me_rejects_token_with_space :
  startsWith (lit "mock-jwt-token- 1") Spec.tokenPrefix = true
  /\ Spec.fourthSegment (lit "mock-jwt-token- 1") = Some 1%Z
  /\ is_Some (findById mockDb (Some 1%Z))
  /\ me mockDb (Some (lit "Bearer mock-jwt-token- 1")) = failure 404 "User not found"
  /\ ~ (forall db t n u,
          startsWith t Spec.tokenPrefix = true ->
          Spec.fourthSegment t = Some n ->
          findById db (Some n) = Some u ->
          me db (Some (lit "Bearer " ++ t)) = Spec.currentUser u).
Proof.
  split; [reflexivity|]. split; [reflexivity|].
  split; [eexists; reflexivity|]. split; [reflexivity|].
  intros H.
  assert (exists u, findById mockDb (Some 1%Z) = Some u) as [u Hu]
    by (eexists; reflexivity).
  specialize (H mockDb (lit "mock-jwt-token- 1") 1%Z u eq_refl eq_refl Hu).
  vm_compute in Hu. injection Hu as <-.
  vm_compute in H. discriminate H.
Qed.

End MeFacts.

(** ** Tokens issued by the service, and what the service shows of a user *)

Module TokenFacts.

Import Js Handlers JsFacts ServiceFacts.
Local Open Scope N_scope.

(** A response of [login] with status 200 comes from a stored user and its
    password. *)
Lemma login_succeeded db e p now :
  status (login db e p now) = 200%Z ->
  exists e' p' u,
    e = Some e' /\ p = Some p'
    /\ findByEmail db e' = Some u /\ credentials db !! e' = Some p'
    /\ login db e p now =
       Spec.loggedIn u (generateMockToken (User.id u) (User.email u) now).
Proof.
  intros Hs.
  destruct (decide (Spec.missing e \/ Spec.missing p)) as [Hm|Hm].
  - rewrite (LoginFacts.login_required db e p now Hm) in Hs. discriminate Hs.
  - unfold Spec.missing in Hm.
    destruct e as [e'|]; [|tauto]. destruct p as [p'|]; [|tauto].
    assert (e' <> []) as He by (intros ->; tauto).
    assert (p' <> []) as Hp by (intros ->; tauto).
    destruct (LoginFacts.login_cases db e' p' now He Hp) as [(u & Hu & Hc & E)|[_ E]].
    + exists e', p', u. auto.
    + rewrite E in Hs. discriminate Hs.
Qed.

(** Over a store with identifiers that are unique and not negative, the
    token of a successful login gets the user that logged in back from
    [me]. *)
Lemma login_then_me db e p now :
  NoDup (User.id <$> users db) ->
  Forall (fun u => (0 <= User.id u)%Z) (users db) ->
  status (login db e p now) = 200%Z ->
  exists u tok,
    e = Some (User.email u)
    /\ login db e p now = Spec.loggedIn u tok
    /\ me db (Some (lit "Bearer " ++ tok)) = Spec.currentUser u.
Proof.
  intros Hnd Hpos Hs.
  destruct (login_succeeded db e p now Hs) as (e' & p' & u & -> & -> & Hu & Hc & E).
  exists u, (generateMockToken (User.id u) (User.email u) now).
  split; [now rewrite (findByEmail_email _ _ _ Hu)|].
  split; [assumption|].
  pose proof (findByEmail_In db e' u Hu) as Hin.
  rewrite MeFacts.me_issued.
  - now rewrite findById_unique.
  - rewrite Forall_forall in Hpos. apply Hpos. now apply list_elem_of_In.
Qed.

Lemma mockUsers_ids_unique : NoDup (User.id <$> users mockDb).
Proof. apply (bool_decide_unpack _). vm_compute. exact I. Qed.

Lemma mockUsers_ids_nonneg : Forall (fun u => (0 <= User.id u)%Z) (users mockDb).
Proof. repeat constructor; simpl; lia. Qed.

(** C1, as the code has it. A token returned by a successful login, passed
    at once to [me] as [Bearer <token>], gets 200 with a user whose id and
    email are those of the user that logged in. *)
Theorem login_token_roundtrip e p now :
  status (login mockDb e p now) = 200%Z ->
  exists u tok,
    dataToken (login mockDb e p now) = Some (VStr tok)
    /\ e = Some (User.email u)
    /\ Spec.userField (login mockDb e p now) "id" = Some (VNum (User.id u))
    /\ Spec.userField (login mockDb e p now) "email" = Some (VStr (User.email u))
    /\ let r := me mockDb (Some (lit "Bearer " ++ tok)) in
       status r = 200%Z
       /\ Spec.userField r "id" = Some (VNum (User.id u))
       /\ Spec.userField r "email" = Some (VStr (User.email u)).
Proof.
  intros Hs.
  destruct (login_then_me mockDb e p now mockUsers_ids_unique mockUsers_ids_nonneg Hs)
    as (u & tok & He & E & Hme).
  exists u, tok. rewrite E, Hme. repeat split. exact He.
Qed.

(** A token returned by a successful signup names the identifier
    [mockUsers.length + 1], which no stored user has: [me] answers 404. *)
Lemma signup_then_me e p f l iso now :
  status (signup mockDb e p f l iso now) = 201%Z ->
  exists tok,
    dataToken (signup mockDb e p f l iso now) = Some (VStr tok)
    /\ me mockDb (Some (lit "Bearer " ++ tok)) = failure 404 "User not found".
Proof.
  intros Hs. exists (generateMockToken 3 (default [] e) now). split.
  - unfold signup in *.
    destruct (negb (truthy (ofField e)) || negb (truthy (ofField p)));
      [discriminate Hs|].
    destruct e as [e'|]; [|discriminate Hs]. destruct p as [p'|]; [|discriminate Hs].
    destruct (negb (Regex.test emailRegex e')); [discriminate Hs|].
    destruct (N.of_nat (length p') <? 6); [discriminate Hs|].
    destruct (findByEmail mockDb e'); [discriminate Hs|]. reflexivity.
  - now rewrite MeFacts.me_issued.
Qed.

(** C1 as stated fails for signup: the token of a successful signup does
    not get the created user back. *)
Lemma signup_token_not_found :
  let r := signup mockDb (Some (lit "new@x.com")) (Some (lit "password123"))
             None None (lit "2024-02-01T00:00:00.000Z") 1706745600000 in
  status r = 201%Z
  /\ dataToken r = Some (VStr (lit "mock-jwt-token-3-new@x.com-1706745600000"))
  /\ me mockDb (Some (lit "Bearer mock-jwt-token-3-new@x.com-1706745600000"))
     = failure 404 "User not found"
  /\ status (me mockDb (Some (lit "Bearer mock-jwt-token-3-new@x.com-1706745600000")))
     <> 200%Z.
Proof.
  cbv zeta. repeat split; try reflexivity. vm_compute. discriminate.
Qed.

(** *** Signing up twice *)

(** C2, as the code has it. For a signup input that passes validation, the
    response is 409 "User with this email already exists" exactly when the
    email is in the store at the time of the call, and 201 otherwise; a
    signup leaves the store as it was, so two signups in a row with the
    same email get the same status: 201 twice for a new email, 409 twice
    for a stored one. *)
Theorem signup_conflict_at_call_time db e p f l iso1 now1 iso2 now2 :
  Spec.emailShape e -> (6 <= length p)%nat ->
  let rq1 := PostSignup (Some e) (Some p) f l iso1 now1 in
  let rq2 := PostSignup (Some e) (Some p) f l iso2 now2 in
  snd (run db [rq1; rq2]) = db
  /\ (findByEmail db e = None ->
      status <$> fst (run db [rq1; rq2]) = [201%Z; 201%Z])
  /\ (is_Some (findByEmail db e) ->
      fst (run db [rq1; rq2]) =
      [failure 409 "User with this email already exists";
       failure 409 "User with this email already exists"]).
Proof.
  intros Hs Hlen rq1 rq2.
  pose proof (emailShape_not_nil e Hs) as He.
  assert (p <> []) as Hp by (intros ->; simpl in Hlen; lia).
  split; [reflexivity|]. split.
  - intros Hu. simpl.
    destruct (SignupFacts.signup_created db e p f l iso1 now1 He Hp Hs Hlen Hu) as [-> _].
    destruct (SignupFacts.signup_created db e p f l iso2 now2 He Hp Hs Hlen Hu) as [-> _].
    reflexivity.
  - intros Hu. simpl.
    now rewrite !SignupFacts.signup_conflict.
Qed.

(** C2 as stated fails: the second of two signups with the same new email
    gets 201 again, not 409. *)
Lemma signup_twice_created_twice :
  let rq := PostSignup (Some (lit "new@x.com")) (Some (lit "password123"))
              None None (lit "2024-02-01T00:00:00.000Z") 1706745600000 in
  findByEmail mockDb (lit "new@x.com") = None
  /\ status <$> fst (run mockDb [rq; rq]) = [201%Z; 201%Z]
  /\ status <$> fst (run mockDb [rq; rq]) <> [201%Z; 409%Z].
Proof.
  cbv zeta. split; [reflexivity|]. split; [reflexivity|]. vm_compute. discriminate.
Qed.

End TokenFacts.

(** ** What a response shows of a user *)

Module LeakFacts.

Import Js Handlers JsFacts ServiceFacts.
Local Open Scope N_scope.

Lemma login_shape db e p now : Spec.Shape (login db e p now).
Proof.
  unfold login.
  destruct (negb (truthy (ofField e)) || negb (truthy (ofField p))); [constructor|].
  destruct e as [e|]; [|constructor]. destruct p as [p|]; [|constructor].
  destruct (findByEmail db e) as [u|]; [|constructor].
  destruct (negb (bool_decide (Some p = credentials db !! e))); [constructor|].
  apply Spec.shape_login.
Qed.

Lemma signup_shape db e p f l iso now : Spec.Shape (signup db e p f l iso now).
Proof.
  unfold signup.
  destruct (negb (truthy (ofField e)) || negb (truthy (ofField p))); [constructor|].
  destruct e as [e|]; [|constructor]. destruct p as [p|]; [|constructor].
  destruct (negb (Regex.test emailRegex e)); [constructor|].
  destruct (N.of_nat (length p) <? 6); [constructor|].
  destruct (findByEmail db e) as [u|]; [constructor|].
  apply Spec.shape_signup.
Qed.

Lemma me_shape db h : Spec.Shape (me db h).
Proof.
  unfold me. destruct h as [h|]; [|constructor].
  destruct (negb (truthy (VStr h)) || negb (startsWith h (lit "Bearer ")));
    [constructor|].
  destruct (negb (truthy (ofField (split 32 h !! 1%nat))) || _); [constructor|].
  destruct (findById db _) as [u|]; [|constructor].
  apply Spec.shape_me.
Qed.

(** [me] answers with a failure or with a stored user. *)
Lemma me_cases db h :
  (exists code msg, me db h = failure code msg /\ code <> 200%Z)
  \/ (exists u, me db h = Spec.currentUser u).
Proof.
  unfold me. destruct h as [h|]; [|left; eexists _, _; split; [reflexivity | lia]].
  destruct (negb (truthy (VStr h)) || negb (startsWith h (lit "Bearer ")));
    [left; eexists _, _; split; [reflexivity | lia]|].
  destruct (negb (truthy (ofField (split 32 h !! 1%nat))) || _);
    [left; eexists _, _; split; [reflexivity | lia]|].
  destruct (findById db _) as [u|]; [right; eauto|].
  left; eexists _, _; split; [reflexivity | lia].
Qed.

Lemma handle_shape db rq : Spec.Shape (fst (handle db rq)).
Proof.
  destruct rq; simpl; [apply login_shape | apply signup_shape | apply me_shape].
Qed.

Lemma public_keys_only (ks : list string) :
  bool_decide (Forall (fun k => k ∈ Spec.publicKeys) ks) = true ->
  Forall (fun k => k ∈ Spec.publicKeys) ks.
Proof. apply bool_decide_eq_true_1. Qed.

(** The user object of a response that is not a failure has public fields
    only. *)
Lemma shape_public r : Spec.Shape r -> succeeded r = true -> Spec.publicUserOnly r.
Proof.
  intros [code msg|u tok|newId e f l iso tok|u] Hs.
  - discriminate Hs.
  - eexists. split; [reflexivity|]. split; [now apply public_keys_only | split; reflexivity].
  - eexists. split; [reflexivity|]. split; [now apply public_keys_only | split; reflexivity].
  - eexists. split; [reflexivity|]. split; [now apply public_keys_only | split; reflexivity].
Qed.

(** *** No handler reads a stored password hash *)

Lemma find_blank (f : User.t -> bool) l :
  (forall u, f (Spec.blankPassword u) = f u) ->
  find f (Spec.blankPassword <$> l) = Spec.blankPassword <$> find f l.
Proof.
  intros Hf. induction l as [|u l IH]; simpl; [reflexivity|].
  rewrite Hf. destruct (f u); [reflexivity | apply IH].
Qed.

Lemma findByEmail_blank db e :
  findByEmail (Spec.withoutPasswords db) e = Spec.blankPassword <$> findByEmail db e.
Proof. apply find_blank. reflexivity. Qed.

Lemma findById_blank db n :
  findById (Spec.withoutPasswords db) n = Spec.blankPassword <$> findById db n.
Proof. destruct n as [n|]; [apply find_blank|]; reflexivity. Qed.

Lemma login_blank db e p now :
  login (Spec.withoutPasswords db) e p now = login db e p now.
Proof.
  unfold login.
  destruct (negb (truthy (ofField e)) || negb (truthy (ofField p))); [reflexivity|].
  destruct e as [e|]; [|reflexivity]. destruct p as [p|]; [|reflexivity].
  rewrite !findByEmail_blank. now destruct (findByEmail db e).
Qed.

Lemma signup_blank db e p f l iso now :
  signup (Spec.withoutPasswords db) e p f l iso now = signup db e p f l iso now.
Proof.
  unfold signup.
  destruct (negb (truthy (ofField e)) || negb (truthy (ofField p))); [reflexivity|].
  destruct e as [e|]; [|reflexivity]. destruct p as [p|]; [|reflexivity].
  rewrite findByEmail_blank. simpl users. rewrite length_fmap.
  now destruct (findByEmail db e).
Qed.

Lemma me_blank db h : me (Spec.withoutPasswords db) h = me db h.
Proof.
  unfold me. destruct h as [h|]; [|reflexivity].
  rewrite findById_blank. now destruct (findById db _).
Qed.

(** C7. The user object of every successful response of signup, login and
    the current-user lookup has public fields only, no [password] and no
    [passwordHash]; and no response of the three depends on a password
    hash of the store. *)
Theorem no_credential_leak db rq :
  (succeeded (fst (handle db rq)) = true -> Spec.publicUserOnly (fst (handle db rq)))
  /\ fst (handle (Spec.withoutPasswords db) rq) = fst (handle db rq).
Proof.
  split.
  - apply shape_public, handle_shape.
  - destruct rq; simpl; [apply login_blank | apply signup_blank | apply me_blank].
Qed.

End LeakFacts.

(** ** The client store *)

Module ClientFacts.

Import Js AuthContext.

(** What the cells hold after each operation. *)
Lemma user_setLoading w b : user (setLoading w b) = user w.
Proof. reflexivity. Qed.

Lemma user_effect w : user (effect w) = user w.
Proof. unfold effect. now destruct (truthy (token w)). Qed.

Lemma user_setToken w t : user (setToken w t) = user w.
Proof.
  unfold setToken. destruct (sameValue t (token w)); [reflexivity|].
  now rewrite user_effect.
Qed.

Lemma user_logout w : user (logout w) = VNull.
Proof. reflexivity. Qed.

Lemma token_effect w : token (effect w) = token w.
Proof. unfold effect. now destruct (truthy (token w)). Qed.

Lemma storage_effect w : storage (effect w) = storage w.
Proof. unfold effect. now destruct (truthy (token w)). Qed.

Lemma sameValue_eq a b : sameValue a b = true -> a = b.
Proof.
  destruct a, b; simpl; try discriminate; try reflexivity.
  - intros H. apply Bool.eqb_prop in H. now subst.
  - intros H. apply Z.eqb_eq in H. now subst.
  - intros H. apply JsFacts.streq_true in H. now subst.
Qed.

Lemma token_setToken w t : token (setToken w t) = t.
Proof.
  unfold setToken. destruct (sameValue t (token w)) eqn:E.
  - symmetry. now apply sameValue_eq.
  - now rewrite token_effect.
Qed.

Lemma storage_setToken w t : storage (setToken w t) = storage w.
Proof.
  unfold setToken. destruct (sameValue t (token w)); [reflexivity|].
  now rewrite storage_effect.
Qed.

Lemma token_logout w : token (logout w) = VNull.
Proof. unfold logout, setUser. cbn [token]. apply token_setToken. Qed.


(** After [logout] with a token held, the effect ends loading. *)
Lemma loading_logout w : truthy (token w) = true -> loading (logout w) = false.
Proof.
  intros Ht. unfold logout, setUser. cbn [loading]. unfold setToken.
  destruct (sameValue VNull (token (removeItem w))) eqn:E.
  - apply sameValue_eq in E. cbn [removeItem token] in E.
    rewrite <- E in Ht. discriminate Ht.
  - reflexivity.
Qed.


(** *** The invariant: the [user] cell holds [null] or an object *)

Lemma isAuthenticated_holdsUser w :
  user w = VNull \/ holdsUser w -> (isAuthenticated w = true <-> holdsUser w).
Proof.
  unfold isAuthenticated, holdsUser. intros [H|[props H]]; rewrite H; simpl.
  - split; [discriminate | intros [? ?]; discriminate].
  - split; eauto.
Qed.

Lemma boot_user stored : user (boot stored) = VNull.
Proof. unfold boot. now rewrite user_effect. Qed.

Lemma fetchUser_user w r :
  Spec.Shape r ->
  let w' := fetchUser w (Replied (Handlers.body r)) in
  user w' = VNull \/ holdsUser w'.
Proof.
  intros [code msg|u tok|newId e f l iso tok|u]; cbv zeta;
    unfold fetchUser, holdsUser; simpl; eauto.
Qed.

Lemma authenticate_user w r :
  Spec.Shape r ->
  user w = VNull \/ holdsUser w ->
  let w' := fst (authenticate w (Replied (Handlers.body r))) in
  user w' = VNull \/ holdsUser w'.
Proof.
  intros [code msg|u tok|newId e f l iso tok|u] Hw; cbv zeta;
    unfold authenticate, holdsUser; simpl; eauto.
Qed.

Lemma serve_shape db c iso now : Spec.Shape (serve db c iso now).
Proof.
  destruct c; unfold serve;
    [apply LeakFacts.me_shape | apply LeakFacts.signup_shape | apply LeakFacts.login_shape].
Qed.

Lemma step_user db w w' :
  step db w w' -> user w = VNull \/ holdsUser w -> user w' = VNull \/ holdsUser w'.
Proof.
  intros Hstep Hw. destruct Hstep as [w e p f l|w e p|w|w before c after iso now Hin
                                     |w before c after Hin].
  - exact Hw.
  - exact Hw.
  - left. apply user_logout.
  - destruct c; cbn [settle].
    + apply fetchUser_user, serve_shape.
    + apply authenticate_user; [apply serve_shape | exact Hw].
    + apply authenticate_user; [apply serve_shape | exact Hw].
  - destruct c; simpl; auto.
Qed.

Lemma reachable_user db stored w :
  reachable db stored w -> user w = VNull \/ holdsUser w.
Proof.
  induction 1 as [|w w' _ IH Hstep].
  - left. apply boot_user.
  - exact (step_user db w w' Hstep IH).
Qed.

(** C8. In every state the provider can reach, [isAuthenticated] is true
    exactly when a user record is held. A token alone does not make it
    true: started with a token in the slot, the provider holds the token
    and has the lookup of its user in flight, and [isAuthenticated] is
    false. *)
Theorem isAuthenticated_iff_user db stored w :
  reachable db stored w ->
  (isAuthenticated w = true <-> holdsUser w)
  /\ (user w = VNull -> isAuthenticated w = false)
  /\ (forall t, t <> [] ->
        reachable db (Some t) (boot (Some t))
        /\ token (boot (Some t)) = VStr t
        /\ inflight (boot (Some t)) = [CallMe (VStr t)]
        /\ isAuthenticated (boot (Some t)) = false).
Proof.
  intros Hr. split; [|split].
  - apply isAuthenticated_holdsUser. exact (reachable_user db stored w Hr).
  - unfold isAuthenticated. now intros ->.
  - intros t Ht. split; [constructor|].
    unfold boot, effect. simpl.
    assert (streq t [] = false) as -> by now apply JsFacts.streq_false.
    repeat split.
Qed.

(** *** Start with a stored token that does not resolve *)

(** A failed call makes [fetchUser] log out. *)
Lemma fetchUser_failed w o :
  lookupFailed o -> fetchUser w o = setLoading (logout w) false.
Proof.
  destruct o as [|data]; [reflexivity|]. unfold fetchUser. simpl.
  destruct (prop data "success") as [s|]; simpl; [|reflexivity].
  intros [-> | ->]; [reflexivity|]. now destruct (truthy s).
Qed.

(** A response of [me] other than 200 is not a success. *)
Lemma me_failure_unsuccessful db h :
  Handlers.status (Handlers.me db h) <> 200%Z ->
  truthy (default VUndefined (prop (Handlers.body (Handlers.me db h)) "success")) = false.
Proof.
  intros Hs. destruct (LeakFacts.me_cases db h) as [(code & msg & -> & _)|[u E]].
  - reflexivity.
  - rewrite E in Hs. now destruct Hs.
Qed.

Lemma boot_token t :
  t <> [] ->
  boot (Some t) =
  {| user := VNull; token := VStr t; loading := true;
     storage := Some t; inflight := [CallMe (VStr t)] |}.
Proof.
  intros Ht. unfold boot, effect. simpl.
  now assert (streq t [] = false) as -> by now apply JsFacts.streq_false.
Qed.


End ClientFacts.

(** ** The facts at the requests of the test suites *)

Module Scenarios.

Import Js Handlers.

(** The five signup requests of [auth.test.js], against [mockUsers]. *)
Lemma signup_validation_order_witness :
  signup mockDb None (Some (lit "password123")) None None [] 0
    = failure 400 "Email and password are required"
  /\ signup mockDb (Some (lit "invalidemail")) (Some (lit "password123")) None None [] 0
    = failure 400 "Invalid email format"
  /\ signup mockDb (Some (lit "test@example.com")) (Some (lit "12345")) None None [] 0
    = failure 400 "Password must be at least 6 characters long"
  /\ signup mockDb (Some (lit "john@example.com")) (Some (lit "password123")) None None [] 0
    = failure 409 "User with this email already exists"
  /\ status (signup mockDb (Some (lit "newuser@example.com")) (Some (lit "password123"))
               (Some (lit "New")) (Some (lit "User")) [] 0) = 201%Z
  /\ snd (handle mockDb
            (PostSignup (Some (lit "newuser@example.com")) (Some (lit "password123"))
               (Some (lit "New")) (Some (lit "User")) [] 0)) = mockDb.
Proof.
  split; [|split; [|split; [|split]]].
  - apply (SignupFacts.signup_validation_order mockDb None (Some (lit "password123"))).
    left. now left.
  - destruct (SignupFacts.signup_validation_order mockDb
                (Some (lit "invalidemail")) (Some (lit "password123")) None None [] 0)
      as [_ H].
    destruct (H (lit "invalidemail") (lit "password123") eq_refl eq_refl
                ltac:(discriminate) ltac:(discriminate)) as (Hfmt & _).
    apply Hfmt. apply ServiceFacts.emailRegex_not_shape. vm_compute. reflexivity.
  - destruct (SignupFacts.signup_validation_order mockDb
                (Some (lit "test@example.com")) (Some (lit "12345")) None None [] 0)
      as [_ H].
    destruct (H (lit "test@example.com") (lit "12345") eq_refl eq_refl
                ltac:(discriminate) ltac:(discriminate)) as (_ & Hshort & _).
    apply Hshort.
    + apply ServiceFacts.emailRegex_shape. vm_compute. reflexivity.
    + vm_compute. lia.
  - destruct (SignupFacts.signup_validation_order mockDb
                (Some (lit "john@example.com")) (Some (lit "password123")) None None [] 0)
      as [_ H].
    destruct (H (lit "john@example.com") (lit "password123") eq_refl eq_refl
                ltac:(discriminate) ltac:(discriminate)) as (_ & _ & Hdup & _).
    apply Hdup.
    + apply ServiceFacts.emailRegex_shape. vm_compute. reflexivity.
    + vm_compute. lia.
    + vm_compute. eauto.
  - destruct (SignupFacts.signup_validation_order mockDb
                (Some (lit "newuser@example.com")) (Some (lit "password123"))
                (Some (lit "New")) (Some (lit "User")) [] 0)
      as [_ H].
    destruct (H (lit "newuser@example.com") (lit "password123") eq_refl eq_refl
                ltac:(discriminate) ltac:(discriminate)) as (_ & _ & _ & Hnew).
    assert (Spec.emailShape (lit "newuser@example.com")) as Hs
      by (apply ServiceFacts.emailRegex_shape; vm_compute; reflexivity).
    assert (6 <= length (lit "password123"))%nat as Hl by (vm_compute; lia).
    destruct (Hnew Hs Hl eq_refl) as (H201 & _ & _ & _ & _ & Hdb & _).
    split; [exact H201 | exact Hdb].
Defined.

(** The two failing logins of [auth.test.js], against [mockUsers]. *)
Lemma login_enumeration_resistance_witness :
  login mockDb (Some (lit "nonexistent@example.com")) (Some (lit "password123")) 0
    = failure 401 "Invalid email or password"
  /\ login mockDb (Some (lit "john@example.com")) (Some (lit "wrongpassword")) 1
    = failure 401 "Invalid email or password"
  /\ login mockDb (Some (lit "nonexistent@example.com")) (Some (lit "password123")) 0
    = login mockDb (Some (lit "john@example.com")) (Some (lit "wrongpassword")) 1.
Proof.
  apply (LoginFacts.login_enumeration_resistance mockDb);
    [discriminate | discriminate | discriminate | discriminate
    | reflexivity | vm_compute; eauto | vm_compute; discriminate].
Defined.

(** A known email with a wrong password of three characters: 401. *)
Lemma login_no_length_check_witness :
  let r := login mockDb (Some (lit "john@example.com")) (Some (lit "abc")) 0 in
  (status r = 200%Z \/ status r = 401%Z)
  /\ status r <> 400%Z
  /\ message r <> VStr (lit "Password must be at least 6 characters long")
  /\ (is_Some (findByEmail mockDb (lit "john@example.com")) ->
      credentials mockDb !! lit "john@example.com" <> Some (lit "abc") ->
      r = failure 401 "Invalid email or password")
  /\ (is_Some (findByEmail mockDb (lit "john@example.com")) ->
      credentials mockDb !! lit "john@example.com" = Some (lit "abc") ->
      status r = 200%Z).
Proof.
  apply (LoginFacts.login_no_length_check mockDb (lit "john@example.com") (lit "abc") 0);
    discriminate.
Defined.

(** Scenario B: the login of the seeded user, and the lookup with its
    token. *)
Lemma login_token_roundtrip_witness :
  status (login mockDb (Some (lit "john@example.com")) (Some (lit "password123"))
            1700000000000) = 200%Z
  /\ exists u tok,
       dataToken (login mockDb (Some (lit "john@example.com"))
                    (Some (lit "password123")) 1700000000000) = Some (VStr tok)
       /\ Some (lit "john@example.com") = Some (User.email u)
       /\ Spec.userField (login mockDb (Some (lit "john@example.com"))
                            (Some (lit "password123")) 1700000000000) "id"
          = Some (VNum (User.id u))
       /\ Spec.userField (login mockDb (Some (lit "john@example.com"))
                            (Some (lit "password123")) 1700000000000) "email"
          = Some (VStr (User.email u))
       /\ let r := me mockDb (Some (lit "Bearer " ++ tok)) in
          status r = 200%Z
          /\ Spec.userField r "id" = Some (VNum (User.id u))
          /\ Spec.userField r "email" = Some (VStr (User.email u)).
Proof.
  split; [reflexivity|].
  apply (TokenFacts.login_token_roundtrip
           (Some (lit "john@example.com")) (Some (lit "password123")) 1700000000000).
  reflexivity.
Defined.

(** Scenario A, twice: the signup of [new@x.com] against [mockUsers]. *)
Lemma signup_conflict_at_call_time_witness :
  let rq1 := PostSignup (Some (lit "new@x.com")) (Some (lit "password123")) None None
               (lit "2024-02-01T00:00:00.000Z") 1706745600000 in
  let rq2 := PostSignup (Some (lit "new@x.com")) (Some (lit "password123")) None None
               (lit "2024-02-01T00:00:01.000Z") 1706745601000 in
  (Spec.emailShape (lit "new@x.com") /\ (6 <= length (lit "password123"))%nat)
  /\ snd (run mockDb [rq1; rq2]) = mockDb
  /\ (findByEmail mockDb (lit "new@x.com") = None ->
      status <$> fst (run mockDb [rq1; rq2]) = [201%Z; 201%Z])
  /\ (is_Some (findByEmail mockDb (lit "new@x.com")) ->
      fst (run mockDb [rq1; rq2]) =
      [failure 409 "User with this email already exists";
       failure 409 "User with this email already exists"]).
Proof.
  cbv zeta.
  assert (Spec.emailShape (lit "new@x.com")) as Hs
    by (apply ServiceFacts.emailRegex_shape; vm_compute; reflexivity).
  assert (6 <= length (lit "password123"))%nat as Hl by (vm_compute; lia).
  split; [split; assumption|].
  apply (TokenFacts.signup_conflict_at_call_time mockDb
           (lit "new@x.com") (lit "password123") None None
           (lit "2024-02-01T00:00:00.000Z") 1706745600000
           (lit "2024-02-01T00:00:01.000Z") 1706745601000);
    assumption.
Defined.

(** The two requests of [auth.test.js] without a usable header, the token
    of the end-to-end tests, and a token over an identifier nobody has. *)
Lemma me_case_analysis_witness :
  me mockDb None = failure 401 "No token provided"
  /\ me mockDb (Some (lit "InvalidToken")) = failure 401 "No token provided"
  /\ me mockDb (Some (lit "Bearer not-a-token")) = failure 401 "Invalid or expired token"
  /\ me mockDb (Some (lit "Bearer mock-jwt-token-7")) = failure 404 "User not found"
  /\ status (me mockDb (Some (lit "Bearer mock-jwt-token-1"))) = 200%Z.
Proof.
  split; [|split; [|split; [|split]]].
  - apply (MeFacts.me_case_analysis mockDb None). now left.
  - apply (MeFacts.me_case_analysis mockDb (Some (lit "InvalidToken"))).
    right. exists (lit "InvalidToken"). split; reflexivity.
  - destruct (MeFacts.me_case_analysis mockDb (Some (lit "Bearer not-a-token"))) as [_ H].
    apply (H (lit "Bearer not-a-token") eq_refl eq_refl).
    intros t Ht. vm_compute in Ht. injection Ht as <-. now right.
  - destruct (MeFacts.me_case_analysis mockDb (Some (lit "Bearer mock-jwt-token-7"))) as [_ H].
    destruct (H (lit "Bearer mock-jwt-token-7") eq_refl eq_refl) as [_ H'].
    destruct (H' (lit "mock-jwt-token-7") eq_refl eq_refl) as (_ & H'' & _).
    apply H''. reflexivity.
  - destruct (MeFacts.me_case_analysis mockDb (Some (lit "Bearer mock-jwt-token-1"))) as [_ H].
    destruct (H (lit "Bearer mock-jwt-token-1") eq_refl eq_refl) as [_ H'].
    destruct (H' (lit "mock-jwt-token-1") eq_refl eq_refl) as (_ & _ & H'').
    now rewrite (H'' _ eq_refl).
Defined.

(** The token of the end-to-end tests, [mock-jwt-token-1]. *)
Lemma me_accepts_prefix_and_id_witness :
  ((32%N ∉ lit "mock-jwt-token-1")
   /\ startsWith (lit "mock-jwt-token-1") Spec.tokenPrefix = true
   /\ Spec.fourthSegment (lit "mock-jwt-token-1") = Some 1%Z)
  /\ exists u,
       findById mockDb (Some 1%Z) = Some u
       /\ User.email u = lit "john@example.com"
       /\ me mockDb (Some (lit "Bearer " ++ lit "mock-jwt-token-1")) = Spec.currentUser u.
Proof.
  assert (32%N ∉ lit "mock-jwt-token-1") as Hs by JsFacts.no_char.
  split; [split; [exact Hs | split; reflexivity]|].
  eexists. split; [reflexivity|]. split; [reflexivity|].
  destruct (MeFacts.me_accepts_prefix_and_id mockDb) as (_ & H & _).
  apply (H (lit "mock-jwt-token-1") 1%Z); [exact Hs | reflexivity | reflexivity | reflexivity].
Defined.

(** The successful login of the seeded user shows no credential. *)
Lemma no_credential_leak_witness :
  let rq := PostLogin (Some (lit "john@example.com")) (Some (lit "password123")) 0 in
  succeeded (fst (handle mockDb rq)) = true
  /\ Spec.publicUserOnly (fst (handle mockDb rq))
  /\ fst (handle (Spec.withoutPasswords mockDb) rq) = fst (handle mockDb rq).
Proof.
  cbv zeta. split; [reflexivity|]. split.
  - apply (LeakFacts.no_credential_leak mockDb). reflexivity.
  - apply (LeakFacts.no_credential_leak mockDb).
Defined.

(** The provider after it started with the token of the seeded user and
    the service answered: authenticated, holding the user. *)
Lemma isAuthenticated_iff_user_witness :
  let tok := lit "mock-jwt-token-1" in
  let call := AuthContext.CallMe (VStr tok) in
  let w := AuthContext.settle
             (AuthContext.withInflight (AuthContext.boot (Some tok)) []) call
             (AuthContext.Replied (body (AuthContext.serve mockDb call [] 0))) in
  AuthContext.reachable mockDb (Some tok) w
  /\ AuthContext.isAuthenticated w = true
  /\ (AuthContext.isAuthenticated w = true <-> AuthContext.holdsUser w).
Proof.
  cbv zeta.
  assert (AuthContext.reachable mockDb (Some (lit "mock-jwt-token-1"))
            (AuthContext.settle
               (AuthContext.withInflight
                  (AuthContext.boot (Some (lit "mock-jwt-token-1"))) [])
               (AuthContext.CallMe (VStr (lit "mock-jwt-token-1")))
               (AuthContext.Replied
                  (body (AuthContext.serve mockDb
                           (AuthContext.CallMe (VStr (lit "mock-jwt-token-1"))) [] 0)))))
    as Hr.
  { eapply AuthContext.reachable_step; [apply AuthContext.reachable_boot|].
    apply (AuthContext.step_reply mockDb _ [] _ []). reflexivity. }
  split; [exact Hr|]. split; [reflexivity|].
  apply (ClientFacts.isAuthenticated_iff_user mockDb (Some (lit "mock-jwt-token-1")) _ Hr).
Defined.


End Scenarios.

(** ** More on the service *)

Module ServiceMore.

Import Js Handlers JsFacts ServiceFacts.
Local Open Scope N_scope.

(** *** Tokens: what [generateMockToken] writes and [me] reads back *)

Lemma toString_negative n : (n < 0)%Z -> toString n = 45 :: digits (Z.to_N (- n)).
Proof.
  intros Hn. unfold toString.
  now assert ((n <? 0)%Z = true) as -> by (apply Z.ltb_lt; lia).
Qed.

Lemma negative_id_segment userId rest :
  (userId < 0)%Z ->
  Spec.fourthSegment (Spec.tokenPrefix ++ toString userId ++ 45 :: rest) = None.
Proof.
  intros Hid. rewrite toString_negative by assumption. unfold Spec.fourthSegment.
  change (Spec.tokenPrefix ++ (45 :: digits (Z.to_N (- userId))) ++ 45 :: rest)
    with (lit "mock" ++ 45 :: lit "jwt" ++ 45 :: lit "token" ++ 45 ::
          [] ++ 45 :: digits (Z.to_N (- userId)) ++ 45 :: rest).
  rewrite split_app_sep by no_char.
  rewrite split_app_sep by no_char.
  rewrite split_app_sep by no_char.
  rewrite split_app_sep by apply not_elem_of_nil.
  reflexivity.
Qed.

(** X1. [me] reads back the identifier that [generateMockToken] wrote,
    for an identifier and a clock reading that are safe integers (so that
    the template literal prints their decimal digits), and whatever email
    a header can carry (dashes and spaces included): the answer is the
    lookup of that identifier. A negative identifier does not survive the
    trip: its sign is taken for a separator and the answer is 404. *)
Theorem issued_token_resolves db userId e now :
  Runs.safeInteger userId -> Runs.safeInteger now -> Runs.headerChars e ->
  me db (Some (lit "Bearer " ++ generateMockToken userId e now)) =
  if (userId <? 0)%Z then failure 404 "User not found"
  else match findById db (Some userId) with
       | None => failure 404 "User not found"
       | Some user => Spec.currentUser user
       end.
Proof.
  intros _ _ _. destruct (userId <? 0)%Z eqn:Hs.
  - apply Z.ltb_lt in Hs.
    destruct (MeFacts.issued_token userId e now) as [rest Ht].
    rewrite (MeFacts.me_valid_token db _ _ (startsWith_app _ _) Ht
               (MeFacts.issued_token_prefix _ _)).
    now rewrite negative_id_segment.
  - apply Z.ltb_ge in Hs. now apply MeFacts.me_issued.
Qed.

Lemma digits_inj a b : digits a = digits b -> a = b.
Proof.
  intros H. rewrite <- (digits_value a), <- (digits_value b). now rewrite H.
Qed.

Lemma digits_head n : exists c s, digits n = c :: s /\ isDigit c.
Proof.
  pose proof (digits_isDigit n) as Hd. pose proof (digits_not_nil n) as Hn.
  destruct (digits n) as [|c s]; [congruence|].
  apply Forall_cons in Hd as [Hc _]. eauto.
Qed.

Lemma toString_inj a b : toString a = toString b -> a = b.
Proof.
  unfold toString.
  destruct (a <? 0)%Z eqn:Ha, (b <? 0)%Z eqn:Hb; intros H.
  - apply Z.ltb_lt in Ha, Hb. injection H as H. apply digits_inj in H. lia.
  - destruct (digits_head (Z.to_N b)) as (c & s & E & [Hc1 Hc2]).
    rewrite E in H. injection H as <- _. lia.
  - destruct (digits_head (Z.to_N a)) as (c & s & E & [Hc1 Hc2]).
    rewrite E in H. injection H as -> _. lia.
  - apply Z.ltb_ge in Ha, Hb. apply digits_inj in H. lia.
Qed.

Lemma generateMockToken_clock userId e now1 now2 :
  generateMockToken userId e now1 = generateMockToken userId e now2 -> now1 = now2.
Proof.
  unfold generateMockToken. intros H.
  do 5 apply app_inv_head in H. now apply toString_inj.
Qed.

Lemma dataToken_loggedIn u tok : dataToken (Spec.loggedIn u tok) = Some (VStr tok).
Proof. reflexivity. Qed.

(** X2. The token of a login carries the clock reading: two successful
    logins with the same credentials return the same token exactly when
    the clock read the same millisecond. *)
Theorem login_token_fresh db e p now1 now2 :
  status (login db e p now1) = 200%Z ->
  (dataToken (login db e p now1) = dataToken (login db e p now2) <-> now1 = now2).
Proof.
  intros Hs. split; [|now intros ->].
  destruct (TokenFacts.login_succeeded db e p now1 Hs)
    as (e' & p' & u & -> & -> & Hu & Hc & E).
  assert (e' <> []) as He.
  { intros ->. unfold login in Hs. simpl in Hs. discriminate Hs. }
  assert (p' <> []) as Hp.
  { intros ->. unfold login in Hs. simpl in Hs.
    rewrite orb_true_r in Hs. discriminate Hs. }
  rewrite E, (LoginFacts.login_ok db e' p' now2 He Hp u Hu Hc).
  rewrite !dataToken_loggedIn. intros H.
  apply (generateMockToken_clock (User.id u) (User.email u)). congruence.
Qed.

(** *** Signup against login *)

(** A response 201 of [signup] comes from a new email of the right shape
    and a password of six characters or more. *)
Lemma signup_succeeded db e p f l iso now :
  status (signup db e p f l iso now) = 201%Z ->
  exists e' p',
    e = Some e' /\ p = Some p' /\ e' <> [] /\ p' <> []
    /\ Spec.emailShape e' /\ (6 <= length p')%nat
    /\ findByEmail db e' = None
    /\ dataToken (signup db e p f l iso now)
       = Some (VStr (generateMockToken (Z.of_nat (length (users db)) + 1) e' now)).
Proof.
  intros Hs.
  destruct (decide (Spec.missing e \/ Spec.missing p)) as [Hm|Hm].
  - rewrite (SignupFacts.signup_required db e p f l iso now Hm) in Hs. discriminate Hs.
  - unfold Spec.missing in Hm.
    destruct e as [e'|]; [|tauto]. destruct p as [p'|]; [|tauto].
    assert (e' <> []) as He by (intros ->; tauto).
    assert (p' <> []) as Hp by (intros ->; tauto).
    exists e', p'. rewrite SignupFacts.signup_present in * by assumption.
    destruct (Regex.test emailRegex e') eqn:Hr; [|discriminate Hs].
    simpl negb in *. cbv iota in *.
    destruct (N.of_nat (length p') <? 6) eqn:Hl; [discriminate Hs|].
    destruct (findByEmail db e') eqn:Hu; [discriminate Hs|].
    apply emailRegex_shape in Hr. apply N.ltb_ge in Hl.
    repeat split; try assumption; try reflexivity. lia.
Qed.

(** X3. Over one store an email cannot both sign up and log in: when
    [signup] answers 201 for an email, [login] with that email answers 401
    for the password just signed up with, and never 200 for any password.
    The account of a fresh signup cannot log in. *)
Theorem signup_then_login_refused db e p f l iso now now' :
  status (signup db e p f l iso now) = 201%Z ->
  login db e p now' = failure 401 "Invalid email or password"
  /\ forall p', status (login db e p' now') <> 200%Z.
Proof.
  intros Hs.
  destruct (signup_succeeded db e p f l iso now Hs)
    as (e' & p0 & -> & -> & He & Hp & _ & _ & Hu & _).
  split.
  - now apply LoginFacts.login_unknown_email.
  - intros p' H.
    destruct (TokenFacts.login_succeeded db (Some e') p' now' H)
      as (e'' & _ & u & E & _ & Hu' & _).
    injection E as <-. congruence.
Qed.

(** X4. The token of a successful signup names the identifier
    [mockUsers.length + 1]: [me] answers it with whoever has that
    identifier in the store, the new user or not, and with 404 when, as in
    [mockUsers], no identifier is above the number of users. *)
Theorem signup_token_lookup db e p f l iso now :
  status (signup db e p f l iso now) = 201%Z ->
  exists tok,
    dataToken (signup db e p f l iso now) = Some (VStr tok)
    /\ me db (Some (lit "Bearer " ++ tok)) =
       match findById db (Some (Z.of_nat (length (users db)) + 1)%Z) with
       | None => failure 404 "User not found"
       | Some user => Spec.currentUser user
       end
    /\ (Forall (fun u => (User.id u <= Z.of_nat (length (users db)))%Z) (users db) ->
        me db (Some (lit "Bearer " ++ tok)) = failure 404 "User not found").
Proof.
  intros Hs.
  destruct (signup_succeeded db e p f l iso now Hs)
    as (e' & p' & -> & -> & _ & _ & _ & _ & _ & Ht).
  eexists. split; [exact Ht|].
  rewrite MeFacts.me_issued by lia. split; [reflexivity|].
  intros Hids.
  destruct (findById db _) as [u|] eqn:E; [|reflexivity].
  pose proof (findById_id _ _ _ E) as Hid.
  apply find_some in E as [Hin _].
  rewrite Forall_forall in Hids. apply list_elem_of_In, Hids in Hin. lia.
Qed.

(** *** What [emailRegex] lets through *)

Lemma plain_no_at l : Forall Spec.plainChar l -> Runs.countAt l = 0%nat.
Proof.
  unfold Runs.countAt. induction 1 as [|c l [_ Hc] _ IH]; [reflexivity|].
  rewrite count_occ_cons_neq by congruence. exact IH.
Qed.

Lemma plain_no_space l :
  Forall Spec.plainChar l -> Forall (fun c => isWhiteSpace c = false) l.
Proof. intros H. eapply Forall_impl; [exact H|]. now intros c [Hc _]. Qed.

Lemma emailShape_facts s :
  Spec.emailShape s ->
  Runs.countAt s = 1%nat
  /\ Forall (fun c => isWhiteSpace c = false) s
  /\ (5 <= length s)%nat.
Proof.
  intros (l & d & t & -> & Hl & Hd & Ht & Fl & Fd & Ft). split; [|split].
  - unfold Runs.countAt. rewrite !count_occ_app.
    fold (Runs.countAt l) (Runs.countAt d) (Runs.countAt t).
    now rewrite !plain_no_at.
  - repeat (apply Forall_app; split); try now apply plain_no_space.
    + now repeat constructor.
    + now repeat constructor.
  - rewrite !length_app. simpl.
    destruct l; [congruence|]. destruct d; [congruence|]. destruct t; [congruence|].
    simpl. lia.
Qed.

(** X5. Signup turns down, with 400 "Invalid email format", every email
    that has no [@] or more than one, that has a white space character
    anywhere, or that is shorter than five characters. *)
Theorem signup_rejects_malformed_email db e p f l iso now :
  e <> [] -> p <> [] ->
  Runs.countAt e <> 1%nat
  \/ Exists (fun c => isWhiteSpace c = true) e
  \/ (length e < 5)%nat ->
  signup db (Some e) (Some p) f l iso now = failure 400 "Invalid email format".
Proof.
  intros He Hp Hbad. apply SignupFacts.signup_bad_format; [assumption..|].
  intros Hs. destruct (emailShape_facts e Hs) as (Hc & Hw & Hlen).
  destruct Hbad as [Hbad|[Hbad|Hbad]]; [congruence | | lia].
  apply Exists_exists in Hbad as (c & Hin & Hc').
  rewrite Forall_forall in Hw.
  rewrite (Hw c Hin) in Hc'. discriminate Hc'.
Qed.

(** *** The header of [me] *)

(** X6. [me] reads one word after [Bearer ]: what follows a second space
    in the header is ignored, and a header with two spaces after [Bearer]
    has an empty token and gets 401 "Invalid or expired token". *)
Theorem me_header_second_word db :
  (forall t junk,
     32 ∉ t ->
     me db (Some (lit "Bearer " ++ t ++ 32 :: junk))
     = me db (Some (lit "Bearer " ++ t)))
  /\ (forall rest,
        me db (Some (lit "Bearer " ++ 32 :: rest))
        = failure 401 "Invalid or expired token").
Proof.
  split.
  - intros t junk Ht.
    rewrite !MeFacts.me_bearer by apply startsWith_app. cbv zeta.
    rewrite !MeFacts.bearer_token.
    rewrite (split_app_sep 32 t junk), (split_no_sep 32 t) by assumption.
    reflexivity.
  - intros rest. apply MeFacts.me_invalid_token; [apply startsWith_app|].
    intros t Ht. rewrite MeFacts.bearer_token in Ht. simpl in Ht.
    injection Ht as <-. now left.
Qed.

(** *** Status and [success] *)

Lemma answers_failure ok errors code msg :
  code ∈ errors -> Runs.answers ok errors (failure code msg).
Proof. intros H. right. split; [reflexivity|]. split; [exact H|]. now exists msg. Qed.

(** X15. The body and the status of every response agree, which matters
    to a client that reads [success] and never the status: [login]
    answers 200 with [success] true, or 400 or 401 with [success] false;
    [signup] 201, or 400 or 409; [me] 200, or 401 or 404; and every
    response that is not a success carries a message that is a string. *)
Theorem status_matches_success db rq :
  match rq with
  | PostLogin _ _ _ => Runs.answers 200 [400; 401]%Z (fst (handle db rq))
  | PostSignup _ _ _ _ _ _ => Runs.answers 201 [400; 409]%Z (fst (handle db rq))
  | GetMe _ => Runs.answers 200 [401; 404]%Z (fst (handle db rq))
  end.
Proof.
  destruct rq as [e p now|e p f l iso now|h]; cbn [handle fst].
  - unfold login.
    destruct (negb (truthy (ofField e)) || negb (truthy (ofField p)));
      [apply answers_failure; no_char|].
    destruct e as [e|]; [|apply answers_failure; no_char].
    destruct p as [p|]; [|apply answers_failure; no_char].
    destruct (findByEmail db e) as [u|]; [|apply answers_failure; no_char].
    destruct (negb (bool_decide (Some p = credentials db !! e)));
      [apply answers_failure; no_char|].
    left. split; reflexivity.
  - unfold signup.
    destruct (negb (truthy (ofField e)) || negb (truthy (ofField p)));
      [apply answers_failure; no_char|].
    destruct e as [e|]; [|apply answers_failure; no_char].
    destruct p as [p|]; [|apply answers_failure; no_char].
    destruct (negb (Regex.test emailRegex e)); [apply answers_failure; no_char|].
    destruct (N.of_nat (length p) <? 6); [apply answers_failure; no_char|].
    destruct (findByEmail db e); [apply answers_failure; no_char|].
    left. split; reflexivity.
  - unfold me. destruct h as [h|]; [|apply answers_failure; no_char].
    destruct (negb (truthy (VStr h)) || negb (startsWith h (lit "Bearer ")));
      [apply answers_failure; no_char|].
    destruct (negb (truthy (ofField (split 32 h !! 1%nat))) || _);
      [apply answers_failure; no_char|].
    destruct (findById db _) as [u|]; [|apply answers_failure; no_char].
    left. split; reflexivity.
Qed.

End ServiceMore.

(** ** More on the provider *)

Module ClientMore.

Import Js AuthContext ClientFacts.

(** *** The answers of the service, as the provider reads them *)

Lemma login_reply db e p now :
  (exists code msg, Handlers.login db e p now = Handlers.failure code msg)
  \/ (exists u, In u (Handlers.users db)
        /\ Handlers.login db e p now =
           Spec.loggedIn u
             (Handlers.generateMockToken (User.id u) (User.email u) now)).
Proof.
  unfold Handlers.login.
  destruct (negb (truthy (ofField e)) || negb (truthy (ofField p))); [left; eauto|].
  destruct e as [e|]; [|left; eauto]. destruct p as [p|]; [|left; eauto].
  destruct (Handlers.findByEmail db e) as [u|] eqn:Hu; [|left; eauto].
  destruct (negb (bool_decide (Some p = Handlers.credentials db !! e))); [left; eauto|].
  right. exists u. split; [|reflexivity]. now apply ServiceFacts.findByEmail_In in Hu.
Qed.

Lemma signup_reply db e p f l iso now :
  (exists code msg, Handlers.signup db e p f l iso now = Handlers.failure code msg)
  \/ (exists e', e = Some e' /\ e' <> []
        /\ Handlers.signup db e p f l iso now =
           Runs.created (Z.of_nat (length (Handlers.users db)) + 1) e' f l iso
             (Handlers.generateMockToken
                (Z.of_nat (length (Handlers.users db)) + 1) e' now)).
Proof.
  unfold Handlers.signup.
  destruct (negb (truthy (ofField e)) || negb (truthy (ofField p))) eqn:Hg;
    [left; eauto|].
  destruct e as [e|]; [|left; eauto]. destruct p as [p|]; [|left; eauto].
  destruct (negb (Regex.test Handlers.emailRegex e)); [left; eauto|].
  destruct (N.of_nat (length p) <? 6)%N; [left; eauto|].
  destruct (Handlers.findByEmail db e); [left; eauto|].
  right. exists e. split; [reflexivity|]. split; [|reflexivity].
  intros ->. discriminate Hg.
Qed.

Lemma me_reply db h :
  (exists code msg, Handlers.me db h = Handlers.failure code msg)
  \/ (exists u, In u (Handlers.users db) /\ Handlers.me db h = Spec.currentUser u).
Proof.
  unfold Handlers.me. destruct h as [h|]; [|left; eauto].
  destruct (negb (truthy (VStr h)) || negb (startsWith h (lit "Bearer ")));
    [left; eauto|].
  destruct (negb (truthy (ofField (split 32 h !! 1%nat))) || _); [left; eauto|].
  destruct (Handlers.findById db _) as [u|] eqn:Hu; [|left; eauto].
  right. exists u. split; [|reflexivity].
  unfold Handlers.findById in Hu.
  destruct (parseInt _); [|discriminate Hu]. now apply find_some in Hu.
Qed.

Lemma authenticate_failure w code msg :
  authenticate w (Replied (Handlers.body (Handlers.failure code msg)))
  = (w, {| success := false; message := VStr (lit msg) |}).
Proof. reflexivity. Qed.

Lemma authenticate_loggedIn w u tok :
  authenticate w (Replied (Handlers.body (Spec.loggedIn u tok)))
  = (setUser (setToken (setItem w (VStr tok)) (VStr tok)) (Runs.loginUser u),
     {| success := true; message := VUndefined |}).
Proof. reflexivity. Qed.

Lemma authenticate_created w newId e f l iso tok :
  authenticate w (Replied (Handlers.body (Runs.created newId e f l iso tok)))
  = (setUser (setToken (setItem w (VStr tok)) (VStr tok))
       (VObj [("id", VNum newId); ("email", VStr e);
              ("firstName", orNull (ofField f));
              ("lastName", orNull (ofField l));
              ("createdAt", VStr iso)]%string),
     {| success := true; message := VUndefined |}).
Proof. reflexivity. Qed.

Lemma fetchUser_failure w code msg :
  fetchUser w (Replied (Handlers.body (Handlers.failure code msg)))
  = setLoading (logout w) false.
Proof. reflexivity. Qed.

Lemma fetchUser_currentUser w u :
  fetchUser w (Replied (Handlers.body (Spec.currentUser u)))
  = setLoading (setUser w (Spec.publicUser u)) false.
Proof. reflexivity. Qed.

(** The answer of the service to a login or a signup. *)
Lemma auth_reply db c iso now :
  (forall t, c <> CallMe t) ->
  (exists code msg, serve db c iso now = Handlers.failure code msg)
  \/ (exists u tok, serve db c iso now = Spec.loggedIn u tok)
  \/ (exists newId e f l tok, serve db c iso now = Runs.created newId e f l iso tok).
Proof.
  intros Hc. destruct c as [t|e p f l|e p]; [now destruct (Hc t)| |]; unfold serve.
  - destruct (signup_reply db e p f l iso now) as [H|(e' & _ & _ & H)];
      [left; exact H | right; right; eauto 10].
  - destruct (login_reply db e p now) as [H|(u & _ & H)];
      [left; exact H | right; left; eauto].
Qed.

(** *** What a failed login or signup does to the provider *)

(** X7. When the service turns a login or a signup down, the provider
    changes nothing of its state and hands the message of the service, a
    string, back to the caller; when the request throws, it changes
    nothing and hands back "Network error. Please try again.". *)
Theorem provider_reports_failure db w c iso now :
  (forall t, c <> CallMe t) ->
  Handlers.succeeded (serve db c iso now) = false ->
  (exists msg,
     Handlers.message (serve db c iso now) = VStr (lit msg)
     /\ authenticate w (Replied (Handlers.body (serve db c iso now)))
        = (w, {| success := false; message := VStr (lit msg) |}))
  /\ authenticate w Threw
     = (w, {| success := false;
              message := VStr (lit "Network error. Please try again.") |}).
Proof.
  intros Hc Hs. split; [|reflexivity].
  destruct (auth_reply db c iso now Hc)
    as [(code & msg & E)|[(u & tok & E)|(newId & e & f & l & tok & E)]];
    rewrite E in *; [|discriminate Hs|discriminate Hs].
  exists msg. split; [reflexivity | apply authenticate_failure].
Qed.

(** *** Logout *)

Lemma logout_fields w :
  logout w =
  {| user := VNull; token := VNull;
     loading := if sameValue VNull (token w) then loading w else false;
     storage := None; inflight := inflight w |}.
Proof.
  unfold logout, setUser, setToken, removeItem. cbn [token user loading storage inflight].
  destruct (sameValue VNull (token w)) eqn:E.
  - apply sameValue_eq in E. cbn [token user loading storage inflight]. now rewrite <- E.
  - reflexivity.
Qed.


(** *** The held token and the stored token *)

Lemma slot_setLoading w b :
  storage w = Runs.slotOf (token w) ->
  storage (setLoading w b) = Runs.slotOf (token (setLoading w b)).
Proof. auto. Qed.

Lemma slot_logout w : storage (logout w) = Runs.slotOf (token (logout w)).
Proof. now rewrite logout_fields. Qed.

Lemma slot_login w tok u :
  let w' := setUser (setToken (setItem w (VStr tok)) (VStr tok)) u in
  token w' = VStr tok /\ storage w' = Some tok.
Proof.
  cbv zeta. unfold setUser. cbn [token storage].
  now rewrite token_setToken, storage_setToken.
Qed.

Lemma fetchUser_slot w o :
  storage w = Runs.slotOf (token w) ->
  storage (fetchUser w o) = Runs.slotOf (token (fetchUser w o)).
Proof.
  intros Hw. unfold fetchUser. apply slot_setLoading.
  destruct o as [|data]; [apply slot_logout|].
  destruct (prop data "success") as [s|]; [|apply slot_logout].
  destruct (truthy s); [|apply slot_logout].
  destruct (dataUser data); [exact Hw | apply slot_logout].
Qed.

Lemma token_kind_logout w : token (logout w) = VNull \/ exists s, token (logout w) = VStr s.
Proof. left. apply token_logout. Qed.

Lemma fetchUser_token_kind w o :
  (token w = VNull \/ exists s, token w = VStr s) ->
  token (fetchUser w o) = VNull \/ exists s, token (fetchUser w o) = VStr s.
Proof.
  intros Hw. unfold fetchUser, setLoading. cbn [token].
  destruct o as [|data]; [apply token_kind_logout|].
  destruct (prop data "success") as [s|]; [|apply token_kind_logout].
  destruct (truthy s); [|apply token_kind_logout].
  destruct (dataUser data); [exact Hw | apply token_kind_logout].
Qed.

Lemma step_slot db w w' :
  step db w w' ->
  storage w = Runs.slotOf (token w) /\ (token w = VNull \/ exists s, token w = VStr s) ->
  storage w' = Runs.slotOf (token w') /\ (token w' = VNull \/ exists s, token w' = VStr s).
Proof.
  intros Hstep [Hs Hk].
  destruct Hstep as [w e p f l|w e p|w|w before c after iso now Hin|w before c after Hin].
  - now split.
  - now split.
  - split; [apply slot_logout | apply token_kind_logout].
  - destruct c as [t|e p f l|e p]; cbn [settle].
    + split; [now apply fetchUser_slot | now apply fetchUser_token_kind].
    + destruct (auth_reply db (CallSignup e p f l) iso now ltac:(discriminate))
        as [(code & msg & E)|[(u & tok & E)|(newId & e' & f' & l' & tok & E)]];
        rewrite E.
      * rewrite authenticate_failure. now split.
      * rewrite authenticate_loggedIn. cbn [fst].
        destruct (slot_login (withInflight w (before ++ after)) tok (Runs.loginUser u))
          as [-> ->]. split; [reflexivity | eauto].
      * rewrite authenticate_created. cbn [fst].
        match goal with |- context [setUser _ ?v] =>
          destruct (slot_login (withInflight w (before ++ after)) tok v) as [-> ->]
        end. split; [reflexivity | eauto].
    + destruct (auth_reply db (CallLogin e p) iso now ltac:(discriminate))
        as [(code & msg & E)|[(u & tok & E)|(newId & e' & f' & l' & tok & E)]];
        rewrite E.
      * rewrite authenticate_failure. now split.
      * rewrite authenticate_loggedIn. cbn [fst].
        destruct (slot_login (withInflight w (before ++ after)) tok (Runs.loginUser u))
          as [-> ->]. split; [reflexivity | eauto].
      * rewrite authenticate_created. cbn [fst].
        match goal with |- context [setUser _ ?v] =>
          destruct (slot_login (withInflight w (before ++ after)) tok v) as [-> ->]
        end. split; [reflexivity | eauto].
  - destruct c as [t|e p f l|e p]; cbn [settle].
    + split; [now apply fetchUser_slot | now apply fetchUser_token_kind].
    + now split.
    + now split.
Qed.

Lemma boot_slot stored :
  storage (boot stored) = Runs.slotOf (token (boot stored))
  /\ (token (boot stored) = VNull \/ exists s, token (boot stored) = VStr s).
Proof.
  unfold boot. rewrite storage_effect, token_effect. cbn [token storage].
  destruct stored as [s|]; split; eauto.
Qed.

(** X9. In every state the provider can reach, the slot ['token'] of
    [localStorage] holds exactly the token the provider holds: nothing
    when it holds none, the same string when it holds one. *)
Theorem slot_mirrors_token db stored w :
  reachable db stored w ->
  (token w = VNull /\ storage w = None)
  \/ (exists s, token w = VStr s /\ storage w = Some s).
Proof.
  intros Hr.
  assert (storage w = Runs.slotOf (token w)
          /\ (token w = VNull \/ exists s, token w = VStr s)) as [Hs Hk].
  { induction Hr as [|w w' _ IH Hstep]; [apply boot_slot|].
    exact (step_slot db w w' Hstep IH). }
  destruct Hk as [Hk|[s Hk]]; rewrite Hk in Hs; [left | right; exists s]; auto.
Qed.

(** *** The loading flag *)

Lemma loading_effect w : loading w = false -> loading (effect w) = false.
Proof. intros H. unfold effect. now destruct (truthy (token w)). Qed.

Lemma loading_setToken w t : loading w = false -> loading (setToken w t) = false.
Proof.
  intros H. unfold setToken. destruct (sameValue t (token w)); [exact H|].
  now apply loading_effect.
Qed.

Lemma loading_authenticate w o :
  loading w = false -> loading (fst (authenticate w o)) = false.
Proof.
  intros H. unfold authenticate.
  destruct o as [|data]; [exact H|].
  destruct (prop data "success") as [s|]; [|exact H].
  destruct (truthy s); [|exact H].
  destruct (dataToken data) as [t|]; [|exact H].
  destruct (dataUser data) as [u|]; [|exact H].
  cbn [fst]. unfold setUser. cbn [loading]. now apply loading_setToken.
Qed.

Lemma step_loading db w w' : step db w w' -> loading w = false -> loading w' = false.
Proof.
  intros Hstep H.
  destruct Hstep as [w e p f l|w e p|w|w before c after iso now Hin|w before c after Hin].
  - exact H.
  - exact H.
  - rewrite logout_fields. cbn [loading]. now destruct (sameValue VNull (token w)).
  - destruct c; cbn [settle]; [reflexivity | |]; now apply loading_authenticate.
  - destruct c; cbn [settle]; [reflexivity | |]; now apply loading_authenticate.
Qed.

(** X10. The provider is loading in its first render, and the loading
    flag only ever goes from true to false: no step of the provider sets
    it again, so a login, a signup or the lookup that follows them is never
    shown as loading. Started without a token, the provider is loading in
    its first render only: the effect that runs after it ends the loading,
    and the first render is the one state that loads. *)
Theorem loading_stays_cleared db :
  (forall w w', step db w w' -> loading w = false -> loading w' = false)
  /\ (forall stored,
        loading (Runs.firstRender stored) = true
        /\ boot stored = effect (Runs.firstRender stored))
  /\ loading (boot None) = false
  /\ (forall w, Runs.rendered db None w ->
        w = Runs.firstRender None \/ loading w = false).
Proof.
  split; [apply step_loading|]. split; [now split|]. split; [reflexivity|].
  intros w [Hw|Hr]; [now left | right].
  induction Hr as [|w w' _ IH Hstep]; [reflexivity|].
  exact (step_loading db w w' Hstep IH).
Qed.

(** *** A login or a signup, and the lookup that follows it *)

Lemma sameValue_ne a b : a <> b -> sameValue a b = false.
Proof.
  intros H. destruct (sameValue a b) eqn:E; [|reflexivity].
  now apply sameValue_eq in E.
Qed.

Lemma generateMockToken_not_nil userId e now :
  Handlers.generateMockToken userId e now <> [].
Proof. discriminate. Qed.

(** A new token makes the effect send the lookup of its user. *)
Lemma inflight_login w tok u :
  tok <> [] -> token w <> VStr tok ->
  inflight (setUser (setToken (setItem w (VStr tok)) (VStr tok)) u)
  = inflight w ++ [CallMe (VStr tok)].
Proof.
  intros Ht Hne. unfold setUser, setToken. cbn [inflight token setItem].
  rewrite sameValue_ne by congruence.
  unfold effect. cbn [token].
  now rewrite (proj2 (JsFacts.truthy_str tok) Ht).
Qed.

Lemma serve_me db tok iso now :
  serve db (CallMe (VStr tok)) iso now = Handlers.me db (Some (lit "Bearer " ++ tok)).
Proof. reflexivity. Qed.

(** *** The header of a lookup, as [fetch] sends it *)

Lemma headerChars_digits n : Runs.headerChars (digits n).
Proof.
  eapply Forall_impl; [apply JsFacts.digits_isDigit|].
  unfold isDigit. intros c Hc. lia.
Qed.

Lemma headerChars_toString n : Runs.headerChars (toString n).
Proof.
  unfold toString. destruct (n <? 0)%Z; [constructor; [lia|]|];
    apply headerChars_digits.
Qed.

Lemma endsClean_digits s n : Runs.endsClean (s ++ digits n).
Proof.
  intros c Hc. rewrite last_app in Hc.
  destruct (last (digits n)) as [d|] eqn:Hd.
  - injection Hc as <-. apply last_Some_elem_of in Hd.
    pose proof (JsFacts.digits_isDigit n) as Hall.
    rewrite Forall_forall in Hall. specialize (Hall d Hd).
    unfold isDigit in Hall. lia.
  - apply last_None in Hd. now destruct (JsFacts.digits_not_nil n).
Qed.

Lemma endsClean_toString s n : Runs.endsClean (s ++ toString n).
Proof.
  unfold toString. destruct (n <? 0)%Z; [|apply endsClean_digits].
  rewrite cons_middle, (assoc_L (++)). apply endsClean_digits.
Qed.

(** The header of the lookup of a token made by [generateMockToken]
    reaches the handler as it is, when the email does. *)
Lemma sendable_token userId e now :
  Runs.headerChars e ->
  Runs.sendable (lit "Bearer " ++ Handlers.generateMockToken userId e now).
Proof.
  intros He. split.
  - unfold Runs.headerChars, Handlers.generateMockToken.
    rewrite !Forall_app. repeat split;
      first [ apply headerChars_toString | exact He
            | apply (bool_decide_unpack _); vm_compute; exact I ].
  - unfold Handlers.generateMockToken. rewrite !(assoc_L (++)).
    apply endsClean_toString.
Qed.

(** X11. A successful login makes the provider hold the token and the
    user, stores the token, and sends the lookup of the user when the
    token is new. The store has identifiers that are unique, not negative
    and safe integers, and emails that a header can carry, and the clock
    reading is a safe integer: then [fetch] sends the header of that
    lookup as it is, and the answer keeps the provider authenticated as
    the same user, with the token held and stored, and not loading. *)
Theorem login_then_lookup db w e p now iso' now' cs :
  NoDup (User.id <$> Handlers.users db) ->
  Forall (fun u => (0 <= User.id u)%Z) (Handlers.users db) ->
  Forall (fun u => Runs.safeInteger (User.id u)) (Handlers.users db) ->
  Forall (fun u => Runs.headerChars (User.email u)) (Handlers.users db) ->
  Runs.safeInteger now ->
  Handlers.status (Handlers.login db e p now) = 200%Z ->
  exists u tok,
    Handlers.dataToken (Handlers.login db e p now) = Some (VStr tok)
    /\ e = Some (User.email u)
    /\ let w1 := fst (authenticate w (Replied (Handlers.body (Handlers.login db e p now)))) in
       token w1 = VStr tok /\ storage w1 = Some tok /\ isAuthenticated w1 = true
       /\ (token w <> VStr tok -> inflight w1 = inflight w ++ [CallMe (VStr tok)])
       /\ Runs.sendable (lit "Bearer " ++ tok)
       /\ let w2 := settle (withInflight w1 cs) (CallMe (VStr tok))
                      (Replied (Handlers.body (serve db (CallMe (VStr tok)) iso' now'))) in
          user w2 = Spec.publicUser u /\ token w2 = VStr tok /\ storage w2 = Some tok
          /\ isAuthenticated w2 = true /\ loading w2 = false.
Proof.
  intros Hnd Hpos _ Hchars _ Hs.
  destruct (TokenFacts.login_succeeded db e p now Hs)
    as (e' & p' & u & -> & -> & Hu & Hc & E).
  pose proof (ServiceFacts.findByEmail_In _ _ _ Hu) as Hin.
  exists u, (Handlers.generateMockToken (User.id u) (User.email u) now).
  rewrite E. split; [reflexivity|].
  split; [now rewrite (ServiceFacts.findByEmail_email _ _ _ Hu)|].
  cbv zeta. rewrite authenticate_loggedIn. cbn [fst].
  destruct (slot_login w (Handlers.generateMockToken (User.id u) (User.email u) now)
              (Runs.loginUser u)) as [Ht Hst].
  split; [exact Ht|]. split; [exact Hst|]. split; [reflexivity|].
  split; [apply inflight_login, generateMockToken_not_nil|].
  split.
  { apply sendable_token. rewrite Forall_forall in Hchars.
    now apply Hchars, list_elem_of_In. }
  revert Ht Hst. generalize (setUser
    (setToken
       (setItem w (VStr (Handlers.generateMockToken (User.id u) (User.email u) now)))
       (VStr (Handlers.generateMockToken (User.id u) (User.email u) now)))
    (Runs.loginUser u)). intros w1 Ht Hst.
  rewrite serve_me, MeFacts.me_issued.
  - rewrite ServiceFacts.findById_unique; [|assumption | exact Hin].
    cbn [settle]. rewrite fetchUser_currentUser.
    unfold setLoading, setUser, withInflight, isAuthenticated.
    cbn [user token storage loading]. rewrite Ht, Hst. repeat split.
  - rewrite Forall_forall in Hpos. now apply Hpos, list_elem_of_In.
Qed.

(** X12. A successful signup makes the provider hold and store the token
    and sends the lookup of the new user. Over a store where no user has
    the identifier [mockUsers.length + 1], as [mockUsers] is, that lookup
    fails and the provider logs out: it holds no user and no token, and
    the slot is empty. When the email is one a header can carry, [fetch]
    sends the header as it is and the answer is 404; the lookup may also
    throw, as [fetch] does on any other email, and [fetchUser] then logs
    out from its [catch]. *)
Theorem signup_then_lookup_logs_out db w e p f l iso now iso' now' cs o :
  Handlers.findById db (Some (Z.of_nat (length (Handlers.users db)) + 1)%Z) = None ->
  Runs.safeInteger (Z.of_nat (length (Handlers.users db)) + 1) ->
  Runs.safeInteger now ->
  Handlers.status (Handlers.signup db e p f l iso now) = 201%Z ->
  exists e' tok,
    e = Some e'
    /\ Handlers.dataToken (Handlers.signup db e p f l iso now) = Some (VStr tok)
    /\ let w1 := fst (authenticate w
                        (Replied (Handlers.body (Handlers.signup db e p f l iso now)))) in
       token w1 = VStr tok /\ storage w1 = Some tok /\ isAuthenticated w1 = true
       /\ (token w <> VStr tok -> inflight w1 = inflight w ++ [CallMe (VStr tok)])
       /\ (Runs.headerChars e' ->
           Runs.sendable (lit "Bearer " ++ tok)
           /\ Handlers.status (serve db (CallMe (VStr tok)) iso' now') = 404%Z)
       /\ (o = Threw
           \/ (Runs.headerChars e'
               /\ o = Replied (Handlers.body (serve db (CallMe (VStr tok)) iso' now'))) ->
           let w2 := settle (withInflight w1 cs) (CallMe (VStr tok)) o in
           user w2 = VNull /\ token w2 = VNull /\ storage w2 = None
           /\ isAuthenticated w2 = false /\ loading w2 = false).
Proof.
  intros Hnone _ _ Hs.
  destruct (ServiceMore.signup_succeeded db e p f l iso now Hs)
    as (e' & p' & -> & -> & He & Hp & Hsh & Hlen & Hu & _).
  assert (Handlers.signup db (Some e') (Some p') f l iso now =
          Runs.created (Z.of_nat (length (Handlers.users db)) + 1) e' f l iso
            (Handlers.generateMockToken
               (Z.of_nat (length (Handlers.users db)) + 1) e' now)) as E
    by (rewrite SignupFacts.signup_checked, Hu by assumption; reflexivity).
  exists e'. eexists. split; [reflexivity|]. rewrite E. split; [reflexivity|].
  cbv zeta. rewrite authenticate_created. cbn [fst].
  match goal with |- context [setUser (setToken (setItem w (VStr ?t)) _) ?v] =>
    destruct (slot_login w t v) as [Ht Hst]
  end.
  split; [exact Ht|]. split; [exact Hst|]. split; [reflexivity|].
  split; [apply inflight_login, generateMockToken_not_nil|].
  clear Ht Hst.
  match goal with |- context [withInflight ?v cs] => generalize v end. intros w1.
  rewrite serve_me, MeFacts.me_issued by lia. rewrite Hnone.
  split; [intros Hchars; split; [now apply sendable_token | reflexivity]|].
  intros [->|[_ ->]]; cbn [settle].
  - unfold fetchUser. rewrite logout_fields.
    unfold setLoading, isAuthenticated. cbn [user token storage loading].
    repeat split.
  - rewrite fetchUser_failure, logout_fields.
    unfold setLoading, isAuthenticated. cbn [user token storage loading].
    repeat split.
Qed.

(** *** A lookup that is answered late *)

Lemma inflight_setToken w t : exists more, inflight (setToken w t) = inflight w ++ more.
Proof.
  unfold setToken. destruct (sameValue t (token w)).
  - exists []. now rewrite app_nil_r.
  - unfold effect. cbn [token]. destruct (truthy t).
    + now exists [CallMe t].
    + exists []. cbn [setLoading inflight]. now rewrite app_nil_r.
Qed.

(** X13. The provider starts with a stored token; before the lookup of
    that token is answered, a login succeeds: the provider is
    authenticated, holds and stores the token of the login, and the first
    lookup is still in flight. When that lookup then fails (it throws, or
    the header reached the service as it is and the service did not
    accept it), its late answer is a step of the provider that logs it
    out: [fetchUser] calls [logout] whatever token is held by then, and
    the user, the token and the slot of the new login are cleared. *)
Theorem stale_lookup_logs_out db t0 e p now o :
  t0 <> [] ->
  Forall (fun u => Runs.safeInteger (User.id u)) (Handlers.users db) ->
  Runs.safeInteger now ->
  Handlers.status (Handlers.login db e p now) = 200%Z ->
  (o = Threw
   \/ exists iso' now',
        Runs.sendable (lit "Bearer " ++ t0)
        /\ Handlers.status (serve db (CallMe (VStr t0)) iso' now') <> 200%Z
        /\ o = Replied (Handlers.body (serve db (CallMe (VStr t0)) iso' now'))) ->
  exists w1 more,
    reachable db (Some t0) w1
    /\ isAuthenticated w1 = true
    /\ (exists tok,
          Handlers.dataToken (Handlers.login db e p now) = Some (VStr tok)
          /\ token w1 = VStr tok /\ storage w1 = Some tok)
    /\ inflight w1 = CallMe (VStr t0) :: more
    /\ let w2 := settle (withInflight w1 more) (CallMe (VStr t0)) o in
       step db w1 w2
       /\ user w2 = VNull /\ token w2 = VNull /\ storage w2 = None
       /\ isAuthenticated w2 = false.
Proof.
  intros Ht0 _ _ Hlogin Ho.
  destruct (TokenFacts.login_succeeded db e p now Hlogin)
    as (e' & p' & u & -> & -> & Hu & Hc & E).
  set (tok := Handlers.generateMockToken (User.id u) (User.email u) now) in *.
  set (wa := send (boot (Some t0)) (CallLogin (Some e') (Some p'))).
  set (wb := withInflight wa [CallMe (VStr t0)]).
  set (w1 := setUser (setToken (setItem wb (VStr tok)) (VStr tok)) (Runs.loginUser u)).
  assert (reachable db (Some t0) w1) as Hr1.
  { assert (step db wa
              (settle (withInflight wa ([CallMe (VStr t0)] ++ []))
                 (CallLogin (Some e') (Some p'))
                 (Replied (Handlers.body
                             (serve db (CallLogin (Some e') (Some p')) [] now)))))
      as Hstep.
    { apply step_reply. subst wa. now rewrite (boot_token t0 Ht0). }
    cbn [settle serve] in Hstep. rewrite E, authenticate_loggedIn in Hstep.
    eapply reachable_step; [|exact Hstep].
    eapply reachable_step; [apply reachable_boot | apply step_login]. }
  assert (exists more, inflight w1 = [] ++ CallMe (VStr t0) :: more) as [more Hin].
  { subst w1. unfold setUser. cbn [inflight].
    destruct (inflight_setToken (setItem wb (VStr tok)) (VStr tok)) as [more ->].
    now exists more. }
  exists w1, more.
  destruct (slot_login wb tok (Runs.loginUser u)) as [Ht Hst].
  split; [exact Hr1|]. split; [reflexivity|].
  split; [exists tok; rewrite E; now repeat split|].
  split; [exact Hin|]. cbv zeta.
  split.
  { destruct Ho as [->|(iso' & now' & _ & _ & ->)].
    - now apply (step_threw db w1 [] (CallMe (VStr t0)) more).
    - now apply (step_reply db w1 [] (CallMe (VStr t0)) more iso' now'). }
  cbn [settle]. rewrite fetchUser_failed, logout_fields.
  - unfold setLoading, isAuthenticated. cbn [user token storage loading].
    repeat split.
  - destruct Ho as [->|(iso' & now' & _ & Hrej & ->)]; [exact I|].
    left. rewrite serve_me in *. now apply me_failure_unsuccessful.
Qed.

(** *** The greeting of the home page *)

Lemma named_loginUser u : User.email u <> [] -> Home.named (Runs.loginUser u).
Proof.
  intros He. eexists _, (User.email u). split; [reflexivity|].
  split; [reflexivity|]. split; [exact He|].
  cbn. destruct (User.firstName u); eauto.
Qed.

Lemma named_publicUser u : User.email u <> [] -> Home.named (Spec.publicUser u).
Proof.
  intros He. eexists _, (User.email u). split; [reflexivity|].
  split; [reflexivity|]. split; [exact He|].
  cbn. destruct (User.firstName u); eauto.
Qed.

Lemma named_created newId e f l iso :
  e <> [] ->
  Home.named (VObj [("id", VNum newId); ("email", VStr e);
                    ("firstName", orNull (ofField f));
                    ("lastName", orNull (ofField l));
                    ("createdAt", VStr iso)]%string).
Proof.
  intros He. eexists _, e. split; [reflexivity|].
  split; [reflexivity|]. split; [exact He|].
  cbn. unfold orNull. destruct f as [f|]; cbn; [|now left].
  destruct (negb (streq f [])); eauto.
Qed.

Section Greeting.

Context (db : Handlers.Db).
Context (Hemails : Forall (fun u => User.email u <> []) (Handlers.users db)).

Lemma stored_email u : In u (Handlers.users db) -> User.email u <> [].
Proof.
  intros Hin. rewrite Forall_forall in Hemails. now apply Hemails, list_elem_of_In.
Qed.

Lemma step_named w w' :
  step db w w' ->
  user w = VNull \/ Home.named (user w) ->
  user w' = VNull \/ Home.named (user w').
Proof.
  intros Hstep Hw.
  destruct Hstep as [w e p f l|w e p|w|w before c after iso now Hin|w before c after Hin].
  - exact Hw.
  - exact Hw.
  - left. apply user_logout.
  - destruct c as [t|e p f l|e p]; cbn [settle serve].
    + destruct (me_reply db (Some (lit "Bearer " ++ valToString t)))
        as [(code & msg & ->)|(u & Hu & ->)].
      * left. reflexivity.
      * right. rewrite fetchUser_currentUser. cbn. fold (Spec.publicUser u).
        now apply named_publicUser, stored_email.
    + destruct (signup_reply db e p f l iso now)
        as [(code & msg & ->)|(e' & -> & He & ->)].
      * rewrite authenticate_failure. exact Hw.
      * right. rewrite authenticate_created. cbn [fst setUser user].
        now apply named_created.
    + destruct (login_reply db e p now) as [(code & msg & ->)|(u & Hu & ->)].
      * rewrite authenticate_failure. exact Hw.
      * right. rewrite authenticate_loggedIn. cbn [fst setUser user].
        now apply named_loginUser, stored_email.
  - destruct c; cbn [settle]; [left; reflexivity | exact Hw | exact Hw].
Qed.

Lemma reachable_named stored w :
  reachable db stored w -> user w = VNull \/ Home.named (user w).
Proof.
  induction 1 as [|w w' _ IH Hstep]; [left; apply boot_user|].
  exact (step_named w w' Hstep IH).
Qed.

End Greeting.

Lemma session_named w :
  Home.named (user w) ->
  exists props e,
    user w = VObj props /\ lookupProp "email" props = VStr e /\ e <> []
    /\ ((exists f, lookupProp "firstName" props = VStr f /\ f <> []
                   /\ Home.session w = Home.Welcome (VStr f))
        \/ ((lookupProp "firstName" props = VNull
             \/ lookupProp "firstName" props = VStr [])
            /\ Home.session w = Home.Welcome (VStr e))).
Proof.
  intros (props & e & Hu & He & Hne & Hf).
  exists props, e. split; [exact Hu|]. split; [exact He|]. split; [exact Hne|].
  unfold Home.session, isAuthenticated, Home.greeting. rewrite Hu. cbn.
  destruct Hf as [Hf | [f Hf]]; rewrite Hf; cbn.
  - right. rewrite He. auto.
  - destruct (streq f []) eqn:Hfe; cbn.
    + apply JsFacts.streq_true in Hfe. subst f. right. rewrite He. auto.
    + apply JsFacts.streq_false in Hfe. left. eauto.
Qed.

(** X14. Over a store whose emails are not empty, the home page shows, in
    every state the provider can reach, either the login and signup links
    (no user is held) or "Welcome," with the name of the user held: its
    first name when that is a string that is not empty, and its email,
    which is never empty, when the first name is [null] or the empty
    string. The render never throws and never greets with nothing. *)
Theorem home_greets_by_name db stored w :
  Forall (fun u => User.email u <> []) (Handlers.users db) ->
  reachable db stored w ->
  (user w = VNull /\ Home.session w = Home.AuthLinks)
  \/ (exists props e,
        user w = VObj props /\ lookupProp "email" props = VStr e /\ e <> []
        /\ ((exists f, lookupProp "firstName" props = VStr f /\ f <> []
                       /\ Home.session w = Home.Welcome (VStr f))
            \/ ((lookupProp "firstName" props = VNull
                 \/ lookupProp "firstName" props = VStr [])
                /\ Home.session w = Home.Welcome (VStr e)))).
Proof.
  intros Hemails Hr.
  destruct (reachable_named db Hemails stored w Hr) as [Hu|Hn].
  - left. split; [exact Hu|]. unfold Home.session, isAuthenticated. now rewrite Hu.
  - right. now apply session_named.
Qed.

End ClientMore.

(** ** More runs against [mockUsers] *)

Module ScenariosMore.

Import Js Handlers.

(** The lookup with a token made for the seeded user. *)
Lemma issued_token_resolves_witness :
  Runs.safeInteger 1 /\ Runs.safeInteger 1700000000000
  /\ Runs.headerChars (lit "john@example.com")
  /\ status (me mockDb
               (Some (lit "Bearer "
                        ++ generateMockToken 1 (lit "john@example.com") 1700000000000)))
     = 200%Z.
Proof.
  assert (Runs.safeInteger 1) as H1 by (unfold Runs.safeInteger; lia).
  assert (Runs.safeInteger 1700000000000) as H2 by (unfold Runs.safeInteger; lia).
  assert (Runs.headerChars (lit "john@example.com")) as H3
    by (apply (bool_decide_unpack _); vm_compute; exact I).
  split; [exact H1|]. split; [exact H2|]. split; [exact H3|].
  rewrite (ServiceMore.issued_token_resolves mockDb 1 (lit "john@example.com")
             1700000000000 H1 H2 H3).
  reflexivity.
Defined.

(** Two logins of the seeded user, one millisecond apart. *)
Lemma login_token_fresh_witness :
  status (login mockDb (Some (lit "john@example.com")) (Some (lit "password123"))
            1700000000000) = 200%Z
  /\ dataToken (login mockDb (Some (lit "john@example.com"))
                  (Some (lit "password123")) 1700000000000)
     <> dataToken (login mockDb (Some (lit "john@example.com"))
                     (Some (lit "password123")) 1700000000001).
Proof.
  split; [reflexivity|]. intros H.
  apply (ServiceMore.login_token_fresh mockDb (Some (lit "john@example.com"))
           (Some (lit "password123")) 1700000000000 1700000000001) in H;
    [discriminate H | reflexivity].
Defined.

(** The signup of [new@x.com], then its login. *)
Lemma signup_then_login_refused_witness :
  status (signup mockDb (Some (lit "new@x.com")) (Some (lit "password123")) None None
            [] 0) = 201%Z
  /\ login mockDb (Some (lit "new@x.com")) (Some (lit "password123")) 1
     = failure 401 "Invalid email or password".
Proof.
  split; [reflexivity|].
  apply (ServiceMore.signup_then_login_refused mockDb
           (Some (lit "new@x.com")) (Some (lit "password123")) None None [] 0 1).
  reflexivity.
Defined.

(** The signup of [new@x.com], then the lookup with its token. *)
Lemma signup_token_lookup_witness :
  status (signup mockDb (Some (lit "new@x.com")) (Some (lit "password123")) None None
            [] 0) = 201%Z
  /\ Forall (fun u => (User.id u <= Z.of_nat (length (users mockDb)))%Z) (users mockDb)
  /\ exists tok,
       dataToken (signup mockDb (Some (lit "new@x.com")) (Some (lit "password123"))
                    None None [] 0) = Some (VStr tok)
       /\ me mockDb (Some (lit "Bearer " ++ tok)) = failure 404 "User not found".
Proof.
  assert (Forall (fun u => (User.id u <= Z.of_nat (length (users mockDb)))%Z)
            (users mockDb)) as Hids
    by (repeat constructor; simpl; lia).
  split; [reflexivity|]. split; [exact Hids|].
  destruct (ServiceMore.signup_token_lookup mockDb
              (Some (lit "new@x.com")) (Some (lit "password123")) None None [] 0 eq_refl)
    as (tok & Ht & _ & H).
  exists tok. split; [exact Ht | exact (H Hids)].
Defined.

(** An email with two [@]. *)
Lemma signup_rejects_malformed_email_witness :
  Runs.countAt (lit "a@b@c.de") <> 1%nat
  /\ signup mockDb (Some (lit "a@b@c.de")) (Some (lit "password123")) None None [] 0
     = failure 400 "Invalid email format".
Proof.
  assert (Runs.countAt (lit "a@b@c.de") <> 1%nat) as Hc by (vm_compute; lia).
  split; [exact Hc|].
  apply (ServiceMore.signup_rejects_malformed_email mockDb);
    [discriminate | discriminate | left; exact Hc].
Defined.

(** The header of the end-to-end token with a second word. *)
Lemma me_header_second_word_witness :
  (32%N ∉ lit "mock-jwt-token-1")
  /\ me mockDb (Some (lit "Bearer " ++ lit "mock-jwt-token-1" ++ 32%N :: lit "extra"))
     = me mockDb (Some (lit "Bearer " ++ lit "mock-jwt-token-1"))
  /\ me mockDb (Some (lit "Bearer " ++ 32%N :: lit "mock-jwt-token-1"))
     = failure 401 "Invalid or expired token".
Proof.
  assert (32%N ∉ lit "mock-jwt-token-1") as Hs by JsFacts.no_char.
  destruct (ServiceMore.me_header_second_word mockDb) as [H1 H2].
  split; [exact Hs|]. split; [now apply H1 | apply H2].
Defined.

(** The login of the seeded user with a wrong password, through the
    provider. *)
Lemma provider_reports_failure_witness :
  let c := AuthContext.CallLogin (Some (lit "john@example.com")) (Some (lit "wrong")) in
  succeeded (AuthContext.serve mockDb c [] 0) = false
  /\ AuthContext.authenticate Runs.idle
       (AuthContext.Replied (body (AuthContext.serve mockDb c [] 0)))
     = (Runs.idle,
        {| AuthContext.success := false;
           AuthContext.message := VStr (lit "Invalid email or password") |}).
Proof.
  cbv zeta. split; [reflexivity|].
  destruct (ClientMore.provider_reports_failure mockDb Runs.idle
              (AuthContext.CallLogin (Some (lit "john@example.com")) (Some (lit "wrong")))
              [] 0 ltac:(discriminate) eq_refl) as [(msg & Hm & Ha) _].
  rewrite Ha. vm_compute in Hm. injection Hm as Hm.
  vm_compute. now rewrite Hm.
Defined.

(** The provider started with the token of the seeded user, after the
    service answered its lookup. *)
Lemma slot_mirrors_token_witness :
  let tok := lit "mock-jwt-token-1" in
  let call := AuthContext.CallMe (VStr tok) in
  let w := AuthContext.settle
             (AuthContext.withInflight (AuthContext.boot (Some tok)) []) call
             (AuthContext.Replied (body (AuthContext.serve mockDb call [] 0))) in
  AuthContext.reachable mockDb (Some tok) w
  /\ ((AuthContext.token w = VNull /\ AuthContext.storage w = None)
      \/ (exists s, AuthContext.token w = VStr s /\ AuthContext.storage w = Some s)).
Proof.
  cbv zeta.
  assert (AuthContext.reachable mockDb (Some (lit "mock-jwt-token-1"))
            (AuthContext.settle
               (AuthContext.withInflight
                  (AuthContext.boot (Some (lit "mock-jwt-token-1"))) [])
               (AuthContext.CallMe (VStr (lit "mock-jwt-token-1")))
               (AuthContext.Replied
                  (body (AuthContext.serve mockDb
                           (AuthContext.CallMe (VStr (lit "mock-jwt-token-1"))) [] 0)))))
    as Hr.
  { eapply AuthContext.reachable_step; [apply AuthContext.reachable_boot|].
    apply (AuthContext.step_reply mockDb _ [] _ []). reflexivity. }
  split; [exact Hr|].
  exact (ClientMore.slot_mirrors_token mockDb (Some (lit "mock-jwt-token-1")) _ Hr).
Defined.

(** The provider started without a token, after a login was sent. *)
Lemma loading_stays_cleared_witness :
  let w := AuthContext.send (AuthContext.boot None)
             (AuthContext.CallLogin (Some (lit "john@example.com"))
                (Some (lit "password123"))) in
  Runs.rendered mockDb None w
  /\ AuthContext.loading (Runs.firstRender None) = true
  /\ AuthContext.loading w = false.
Proof.
  cbv zeta.
  assert (Runs.rendered mockDb None
            (AuthContext.send (AuthContext.boot None)
               (AuthContext.CallLogin (Some (lit "john@example.com"))
                  (Some (lit "password123"))))) as Hr.
  { right. eapply AuthContext.reachable_step;
      [apply AuthContext.reachable_boot | apply AuthContext.step_login]. }
  destruct (ClientMore.loading_stays_cleared mockDb) as (_ & Hfirst & _ & H).
  split; [exact Hr|]. split; [exact (proj1 (Hfirst None))|].
  destruct (H _ Hr) as [Hw|Hl]; [discriminate Hw | exact Hl].
Defined.

(** Scenario B through the provider: the login of the seeded user and the
    lookup that follows. *)
Lemma login_then_lookup_witness :
  NoDup (User.id <$> users mockDb)
  /\ Forall (fun u => (0 <= User.id u)%Z) (users mockDb)
  /\ Forall (fun u => Runs.safeInteger (User.id u)) (users mockDb)
  /\ Forall (fun u => Runs.headerChars (User.email u)) (users mockDb)
  /\ Runs.safeInteger 1700000000000
  /\ status (login mockDb (Some (lit "john@example.com")) (Some (lit "password123"))
               1700000000000) = 200%Z
  /\ exists u tok,
       Some (lit "john@example.com") = Some (User.email u)
       /\ let w1 := fst (AuthContext.authenticate Runs.idle
                           (AuthContext.Replied
                              (body (login mockDb (Some (lit "john@example.com"))
                                       (Some (lit "password123")) 1700000000000)))) in
          AuthContext.inflight w1 = [AuthContext.CallMe (VStr tok)]
          /\ Runs.sendable (lit "Bearer " ++ tok)
          /\ let w2 := AuthContext.settle (AuthContext.withInflight w1 [])
                         (AuthContext.CallMe (VStr tok))
                         (AuthContext.Replied
                            (body (AuthContext.serve mockDb
                                     (AuthContext.CallMe (VStr tok)) [] 0))) in
             AuthContext.user w2 = Spec.publicUser u
             /\ AuthContext.token w2 = VStr tok
             /\ AuthContext.storage w2 = Some tok
             /\ AuthContext.isAuthenticated w2 = true
             /\ AuthContext.loading w2 = false.
Proof.
  assert (Forall (fun u => Runs.safeInteger (User.id u)) (users mockDb)) as Hsafe
    by (repeat constructor; unfold Runs.safeInteger; simpl; lia).
  assert (Forall (fun u => Runs.headerChars (User.email u)) (users mockDb)) as Hchars
    by (apply (bool_decide_unpack _); vm_compute; exact I).
  assert (Runs.safeInteger 1700000000000) as Hnow by (unfold Runs.safeInteger; lia).
  split; [exact TokenFacts.mockUsers_ids_unique|].
  split; [exact TokenFacts.mockUsers_ids_nonneg|].
  split; [exact Hsafe|]. split; [exact Hchars|]. split; [exact Hnow|].
  split; [reflexivity|].
  destruct (ClientMore.login_then_lookup mockDb Runs.idle
              (Some (lit "john@example.com")) (Some (lit "password123"))
              1700000000000 [] 0 []
              TokenFacts.mockUsers_ids_unique TokenFacts.mockUsers_ids_nonneg
              Hsafe Hchars Hnow eq_refl)
    as (u & tok & _ & He & _ & _ & _ & Hin & Hsend & H2).
  exists u, tok. split; [exact He|]. cbv zeta.
  split; [apply Hin; discriminate|]. split; [exact Hsend | exact H2].
Defined.

(** Scenario A through the provider: the signup of [new@x.com] and the
    lookup that follows, answered by the service. *)
Lemma signup_then_lookup_logs_out_witness :
  findById mockDb (Some (Z.of_nat (length (users mockDb)) + 1)%Z) = None
  /\ Runs.safeInteger (Z.of_nat (length (users mockDb)) + 1)
  /\ Runs.safeInteger 1700000000000
  /\ status (signup mockDb (Some (lit "new@x.com")) (Some (lit "password123"))
               None None [] 1700000000000) = 201%Z
  /\ Runs.headerChars (lit "new@x.com")
  /\ exists tok,
       let w1 := fst (AuthContext.authenticate Runs.idle
                        (AuthContext.Replied
                           (body (signup mockDb (Some (lit "new@x.com"))
                                    (Some (lit "password123")) None None []
                                    1700000000000)))) in
       AuthContext.isAuthenticated w1 = true
       /\ AuthContext.inflight w1 = [AuthContext.CallMe (VStr tok)]
       /\ status (AuthContext.serve mockDb (AuthContext.CallMe (VStr tok)) [] 0) = 404%Z
       /\ let w2 := AuthContext.settle (AuthContext.withInflight w1 [])
                      (AuthContext.CallMe (VStr tok))
                      (AuthContext.Replied
                         (body (AuthContext.serve mockDb
                                  (AuthContext.CallMe (VStr tok)) [] 0))) in
          AuthContext.user w2 = VNull /\ AuthContext.token w2 = VNull
          /\ AuthContext.storage w2 = None
          /\ AuthContext.isAuthenticated w2 = false
          /\ AuthContext.loading w2 = false.
Proof.
  assert (Runs.safeInteger (Z.of_nat (length (users mockDb)) + 1)) as Hid
    by (unfold Runs.safeInteger; simpl; lia).
  assert (Runs.safeInteger 1700000000000) as Hnow by (unfold Runs.safeInteger; lia).
  assert (Runs.headerChars (lit "new@x.com")) as Hchars
    by (apply (bool_decide_unpack _); vm_compute; exact I).
  split; [reflexivity|]. split; [exact Hid|]. split; [exact Hnow|].
  split; [reflexivity|]. split; [exact Hchars|].
  destruct (ClientMore.signup_then_lookup_logs_out mockDb Runs.idle
              (Some (lit "new@x.com")) (Some (lit "password123")) None None []
              1700000000000 [] 0 []
              (AuthContext.Replied
                 (body (me mockDb
                          (Some (lit "Bearer "
                                   ++ generateMockToken 3 (lit "new@x.com")
                                        1700000000000)))))
              eq_refl Hid Hnow eq_refl)
    as (e' & tok & He & Htok & _ & _ & Ha & Hin & H404 & H2).
  injection He as <-. vm_compute in Htok. injection Htok as <-.
  eexists. cbv zeta. split; [exact Ha|].
  split; [apply Hin; discriminate|].
  split; [exact (proj2 (H404 Hchars))|].
  apply H2. right. split; [exact Hchars | reflexivity].
Defined.

(** A stored token that the service does not accept, and the login of the
    seeded user before its lookup is answered. *)
Lemma stale_lookup_logs_out_witness :
  let t0 := lit "stale-token" in
  let o := AuthContext.Replied
             (body (AuthContext.serve mockDb (AuthContext.CallMe (VStr t0)) [] 0)) in
  t0 <> []
  /\ Forall (fun u => Runs.safeInteger (User.id u)) (users mockDb)
  /\ Runs.safeInteger 1700000000000
  /\ status (login mockDb (Some (lit "john@example.com")) (Some (lit "password123"))
               1700000000000) = 200%Z
  /\ Runs.sendable (lit "Bearer " ++ t0)
  /\ status (AuthContext.serve mockDb (AuthContext.CallMe (VStr t0)) [] 0) <> 200%Z
  /\ exists w1 more,
       AuthContext.reachable mockDb (Some t0) w1
       /\ AuthContext.isAuthenticated w1 = true
       /\ AuthContext.inflight w1 = AuthContext.CallMe (VStr t0) :: more
       /\ let w2 := AuthContext.settle (AuthContext.withInflight w1 more)
                      (AuthContext.CallMe (VStr t0)) o in
          AuthContext.step mockDb w1 w2
          /\ AuthContext.user w2 = VNull /\ AuthContext.token w2 = VNull
          /\ AuthContext.storage w2 = None.
Proof.
  cbv zeta.
  assert (Forall (fun u => Runs.safeInteger (User.id u)) (users mockDb)) as Hsafe
    by (repeat constructor; unfold Runs.safeInteger; simpl; lia).
  assert (Runs.safeInteger 1700000000000) as Hnow by (unfold Runs.safeInteger; lia).
  assert (Runs.sendable (lit "Bearer " ++ lit "stale-token")) as Hsend.
  { split; [apply (bool_decide_unpack _); vm_compute; exact I|].
    intros c Hc. vm_compute in Hc. injection Hc as <-. lia. }
  assert (status (AuthContext.serve mockDb
                    (AuthContext.CallMe (VStr (lit "stale-token"))) [] 0) <> 200%Z)
    as Hrej by (vm_compute; discriminate).
  split; [discriminate|]. split; [exact Hsafe|]. split; [exact Hnow|].
  split; [reflexivity|]. split; [exact Hsend|]. split; [exact Hrej|].
  destruct (ClientMore.stale_lookup_logs_out mockDb (lit "stale-token")
              (Some (lit "john@example.com")) (Some (lit "password123")) 1700000000000
              (AuthContext.Replied
                 (body (AuthContext.serve mockDb
                          (AuthContext.CallMe (VStr (lit "stale-token"))) [] 0)))
              ltac:(discriminate) Hsafe Hnow eq_refl
              (or_intror (ex_intro _ [] (ex_intro _ 0%Z
                 (conj Hsend (conj Hrej eq_refl))))))
    as (w1 & more & Hr & Ha & _ & Hin & Hstep & Hu & Ht & Hs & _).
  exists w1, more. cbv zeta. auto 10.
Defined.

(** The home page after the provider started with the token of the seeded
    user and the service answered. *)
Lemma home_greets_by_name_witness :
  let tok := lit "mock-jwt-token-1" in
  let call := AuthContext.CallMe (VStr tok) in
  let w := AuthContext.settle
             (AuthContext.withInflight (AuthContext.boot (Some tok)) []) call
             (AuthContext.Replied (body (AuthContext.serve mockDb call [] 0))) in
  Forall (fun u => User.email u <> []) (users mockDb)
  /\ AuthContext.reachable mockDb (Some tok) w
  /\ Home.session w = Home.Welcome (VStr (lit "John"))
  /\ ((AuthContext.user w = VNull /\ Home.session w = Home.AuthLinks)
      \/ (exists props e,
            AuthContext.user w = VObj props
            /\ lookupProp "email" props = VStr e /\ e <> []
            /\ ((exists f, lookupProp "firstName" props = VStr f /\ f <> []
                           /\ Home.session w = Home.Welcome (VStr f))
                \/ ((lookupProp "firstName" props = VNull
                     \/ lookupProp "firstName" props = VStr [])
                    /\ Home.session w = Home.Welcome (VStr e))))).
Proof.
  cbv zeta.
  assert (Forall (fun u => User.email u <> []) (users mockDb)) as He
    by (repeat constructor; discriminate).
  assert (AuthContext.reachable mockDb (Some (lit "mock-jwt-token-1"))
            (AuthContext.settle
               (AuthContext.withInflight
                  (AuthContext.boot (Some (lit "mock-jwt-token-1"))) [])
               (AuthContext.CallMe (VStr (lit "mock-jwt-token-1")))
               (AuthContext.Replied
                  (body (AuthContext.serve mockDb
                           (AuthContext.CallMe (VStr (lit "mock-jwt-token-1"))) [] 0)))))
    as Hr.
  { eapply AuthContext.reachable_step; [apply AuthContext.reachable_boot|].
    apply (AuthContext.step_reply mockDb _ [] _ []). reflexivity. }
  split; [exact He|]. split; [exact Hr|]. split; [reflexivity|].
  exact (ClientMore.home_greets_by_name mockDb (Some (lit "mock-jwt-token-1")) _ He Hr).
Defined.

End ScenariosMore.
